(** * pyphi.conf: the configuration registry and its scoped override

    A shallow embedding of [pyphi/conf.py]: the [Option] descriptor, the
    [Config] registry, the [_override] context manager / decorator, the
    [configure_logging] hook and the [PyphiConfig] option table, followed by
    the properties of the registry that the specification states.

    Python objects that can be shared and mutated in place (the dict- and
    list-valued settings) live in an explicit heap and are held by reference;
    every operation is a state transformer that returns either a value or a
    raised exception together with the state reached. *)

From Stdlib Require Import List String ZArith Bool PeanoNat.
Import ListNotations.
Open Scope string_scope.
Open Scope list_scope.

Set Warnings "-register-all".

(** ** Python values *)

(** A dict key or attribute name as the module uses them: a [str], or [None]
    (the [name] of an [Option] that no registry has bound yet). *)
Inductive key : Type :=
| KNone
| KStr (s : string).

Coercion KStr : string >-> key.

Definition key_eqb (a b : key) : bool :=
  match a, b with
  | KNone, KNone => true
  | KStr x, KStr y => String.eqb x y
  | _, _ => false
  end.

(** Immediate values are immutable; [VRef l] is a reference to the mutable
    container stored at heap location [l]; [VAttr n] is the attribute [n]
    that the registry's type resolves by itself (a bound method such as
    [config.snapshot]). *)
Inductive value : Type :=
| VNone
| VBool (b : bool)
| VInt (n : Z)
| VStr (s : string)
| VRef (l : nat)
| VAttr (n : string).

(** Insertion-ordered Python dicts: assignment to a present key keeps its
    position, assignment to a new key appends. *)
Definition dict := list (key * value).

Inductive object : Type :=
| OList (xs : list value)
| ODict (kvs : dict).

Definition heap_t := list object.

Fixpoint dict_get (k : key) (d : dict) : option value :=
  match d with
  | [] => None
  | (k', v) :: d' => if key_eqb k k' then Some v else dict_get k d'
  end.

Fixpoint dict_set (k : key) (v : value) (d : dict) : dict :=
  match d with
  | [] => [(k, v)]
  | (k', v') :: d' =>
      if key_eqb k k' then (k', v) :: d' else (k', v') :: dict_set k v d'
  end.

Definition dict_keys (d : dict) : list key := map fst d.

(** *** The content of a value

    A reference is followed into the heap; the depth that can be followed is
    bounded, as the interpreter's recursion is. *)
Inductive tree : Type :=
| TNone
| TBool (b : bool)
| TInt (n : Z)
| TStr (s : string)
| TAttr (n : string)
| TList (xs : list tree)
| TDict (kvs : list (key * tree)).

Fixpoint all_some {A} (l : list (option A)) : option (list A) :=
  match l with
  | [] => Some []
  | None :: _ => None
  | Some a :: l' => option_map (cons a) (all_some l')
  end.

Definition recursion_limit : nat := 1000.

(** The content reachable from a value, as [repr] would show it; [None]
    when the depth bound is exhausted (a cyclic or too deeply nested
    container). *)
Fixpoint deref (fuel : nat) (h : heap_t) (v : value) : option tree :=
  match v with
  | VNone => Some TNone
  | VBool b => Some (TBool b)
  | VInt n => Some (TInt n)
  | VStr s => Some (TStr s)
  | VAttr n => Some (TAttr n)
  | VRef l =>
      match fuel with
      | O => None
      | S fuel' =>
          match nth_error h l with
          | Some (OList xs) =>
              option_map TList (all_some (map (deref fuel' h) xs))
          | Some (ODict kvs) =>
              option_map TDict
                (all_some (map (fun kv => option_map (pair (fst kv))
                                            (deref fuel' h (snd kv))) kvs))
          | None => None
          end
      end
  end.

(** ** Exceptions and the state *)

(** The two [ValueError] messages of the module, kept as their format
    arguments rather than as formatted text. *)
Inductive message : Type :=
| NotValidValue (v : value) (name : key)
    (* '{} is not a valid value for {}'.format(value, self.name) *)
| NotValidOption (name : string).
    (* '{} is not a valid config option'.format(name) *)

Inductive exn : Type :=
| ValueError (m : message)
| KeyError (k : key)
| AttributeError (name : string)
| TypeError
| RecursionError
| Exception_ (tag : string).   (* any other exception, of a hook or a body *)

Inductive result (A : Type) : Type :=
| Ok (a : A)
| Err (e : exn).

Arguments Ok {A} a.
Arguments Err {A} e.

(** The dict that [configure_logging] hands to [logging.config.dictConfig],
    reduced to the entries that depend on the configuration. *)
Record log_config : Type := mkLogConfig {
  file_level : value;
  file_filename : value;
  stdout_level : value;
  root_handlers : list string
}.

(** [names] holds the [name] attribute of every [Option] object, by object
    identity (an object not listed has [name = None], as [Option.__init__]
    leaves it); [idict] is the registry instance's [__dict__]; [logging] is
    the logging subsystem, as the sequence of configurations installed;
    [calls] is the history of [on_change] invocations made by
    [Option.__set__], by the identity of the invoking [Option]: it is only
    ever appended to and nothing reads it. *)
Record State : Type := mkState {
  names : list (nat * key);
  idict : dict;
  heap : heap_t;
  logging : list log_config;
  calls : list nat
}.

Definition set_names (n : list (nat * key)) (s : State) : State :=
  mkState n (idict s) (heap s) (logging s) (calls s).
Definition set_idict (d : dict) (s : State) : State :=
  mkState (names s) d (heap s) (logging s) (calls s).
Definition set_heap (h : heap_t) (s : State) : State :=
  mkState (names s) (idict s) h (logging s) (calls s).
Definition set_logging (l : list log_config) (s : State) : State :=
  mkState (names s) (idict s) (heap s) l (calls s).
Definition set_calls (c : list nat) (s : State) : State :=
  mkState (names s) (idict s) (heap s) (logging s) c.

(** A computation either returns or raises, and in both cases leaves a
    state behind. *)
Definition M (A : Type) : Type := State -> result A * State.

Definition ret {A} (a : A) : M A := fun s => (Ok a, s).
Definition raise {A} (e : exn) : M A := fun s => (Err e, s).
Definition bind {A B} (m : M A) (k : A -> M B) : M B :=
  fun s => match m s with
           | (Ok a, s') => k a s'
           | (Err e, s') => (Err e, s')
           end.
Definition gets {A} (f : State -> A) : M A := fun s => (Ok (f s), s).
Definition modify (f : State -> State) : M unit := fun s => (Ok tt, f s).

Notation "x <- m ;; k" := (bind m (fun x => k))
  (at level 61, m at next level, right associativity).
Notation "m ;; k" := (bind m (fun _ => k))
  (at level 61, right associativity).

(** [for x in xs: body(x)] *)
Fixpoint for_each {A} (xs : list A) (body : A -> M unit) : M unit :=
  match xs with
  | [] => ret tt
  | x :: xs' => body x ;; for_each xs' body
  end.

(** ** Equality, membership and truth value *)

(** [a == b] on immediate values: [True == 1] and [False == 0]. *)
Definition scalar_eq (a b : value) : bool :=
  match a, b with
  | VNone, VNone => true
  | VBool x, VBool y => Bool.eqb x y
  | VBool x, VInt y => Z.eqb (Z.b2z x) y
  | VInt x, VBool y => Z.eqb x (Z.b2z y)
  | VInt x, VInt y => Z.eqb x y
  | VStr x, VStr y => String.eqb x y
  | VAttr x, VAttr y => String.eqb x y
  | _, _ => false
  end.

(** Elementwise comparison of two lists of equal length, and comparison of
    two dicts of equal size by looking every key of the first up in the
    second; both stop at the first difference. *)
Fixpoint all_eq (eq : value -> value -> option bool) (xs ys : list value)
  : option bool :=
  match xs, ys with
  | x :: xs', y :: ys' =>
      match eq x y with
      | Some true => all_eq eq xs' ys'
      | r => r
      end
  | _, _ => Some true
  end.

Fixpoint dict_eq (eq : value -> value -> option bool) (xs ys : dict)
  : option bool :=
  match xs with
  | [] => Some true
  | (k, x) :: xs' =>
      match dict_get k ys with
      | None => Some false
      | Some y =>
          match eq x y with
          | Some true => dict_eq eq xs' ys
          | r => r
          end
      end
  end.

(** [a == b], preceded by the identity test that the containers make.
    References are followed into the heap; [None] when the depth bound is
    exhausted. *)
Fixpoint eq_fuel (fuel : nat) (h : heap_t) (a b : value) : option bool :=
  match a, b with
  | VRef x, VRef y =>
      if Nat.eqb x y then Some true
      else
        match fuel with
        | O => None
        | S fuel' =>
            match nth_error h x, nth_error h y with
            | Some (OList xs), Some (OList ys) =>
                if Nat.eqb (List.length xs) (List.length ys)
                then all_eq (eq_fuel fuel' h) xs ys
                else Some false
            | Some (ODict xs), Some (ODict ys) =>
                if Nat.eqb (List.length xs) (List.length ys)
                then dict_eq (eq_fuel fuel' h) xs ys
                else Some false
            | Some _, Some _ => Some false
            | _, _ => None
            end
        end
  | VRef _, _ => Some false
  | _, VRef _ => Some false
  | _, _ => Some (scalar_eq a b)
  end.

Definition py_eq (h : heap_t) (a b : value) : result bool :=
  match eq_fuel recursion_limit h a b with
  | Some r => Ok r
  | None => Err RecursionError
  end.

(** [v in vs] for a list [vs]. *)
Fixpoint py_in (h : heap_t) (v : value) (vs : list value) : result bool :=
  match vs with
  | [] => Ok false
  | x :: vs' =>
      match py_eq h x v with
      | Ok true => Ok true
      | Ok false => py_in h v vs'
      | Err e => Err e
      end
  end.

(** The truth value of [v] in a condition. *)
Definition py_truth (h : heap_t) (v : value) : bool :=
  match v with
  | VNone => false
  | VBool b => b
  | VInt n => negb (Z.eqb n 0)
  | VStr s => negb (String.eqb s "")
  | VAttr _ => true
  | VRef l =>
      match nth_error h l with
      | Some (OList []) | Some (ODict []) => false
      | _ => true
      end
  end.

(** ** The [Option] descriptor *)

(** An object seen through attribute access: what [obj.NAME] evaluates to.
    A change hook receives the registry in this form. *)
Definition registry : Type := string -> M value.

(** The attributes that [Option.__init__] sets and nothing reassigns, with
    the identity of the object; the [name] attribute, which
    [Config.__init__] assigns, is in the state. *)
Record Option : Type := mkOption {
  oid : nat;
  default : value;
  values : option (list value);
  on_change : option (registry -> M unit);
  description : option string
}.

Fixpoint name_lookup (id : nat) (ns : list (nat * key)) : key :=
  match ns with
  | [] => KNone
  | (id', k) :: ns' => if Nat.eqb id id' then k else name_lookup id ns'
  end.

Fixpoint name_bind (id : nat) (k : key) (ns : list (nat * key))
  : list (nat * key) :=
  match ns with
  | [] => [(id, k)]
  | (id', k') :: ns' =>
      if Nat.eqb id id' then (id', k) :: ns' else (id', k') :: name_bind id k ns'
  end.

(** What [Option.__get__] returns: the descriptor itself on class access,
    the stored value on instance access. *)
Inductive got : Type :=
| GotOption (o : Option)
| GotValue (v : value).

Module Option.

(** [self.name] *)
Definition name (self : Option) : M key :=
  gets (fun s => name_lookup (oid self) (names s)).

(** [self.name = k] *)
Definition set_name (self : Option) (k : key) : M unit :=
  modify (fun s => set_names (name_bind (oid self) k (names s)) s).

Definition __init__ (id : nat) (default : value) (values : option (list value))
  (on_change : option (registry -> M unit)) (description : option string)
  : M Option :=
  let self := mkOption id default values on_change description in
  (* Set during config initialization *)
  set_name self KNone ;;
  ret self.

(** [obj] is [None] on class access and the registry instance otherwise;
    of the instance only its [__dict__] is read, which is in the state. *)
Definition __get__ (self : Option) (obj : option unit) : M got :=
  match obj with
  | None => ret (GotOption self)
  | Some _ =>
      nm <- name self ;;
      d <- gets idict ;;
      match dict_get nm d with
      | Some v => ret (GotValue v)
      | None => raise (KeyError nm)
      end
  end.

(** [self.values and value not in self.values] *)
Definition not_allowed (self : Option) (value : value) : M bool :=
  match values self with
  | None => ret false
  | Some [] => ret false
  | Some vs =>
      h <- gets heap ;;
      match py_in h value vs with
      | Ok b => ret (negb b)
      | Err e => raise e
      end
  end.

(** [self.on_change(obj)], entered in the history of invocations. *)
Definition call_on_change (self : Option) (f : registry -> M unit)
  (obj : registry) : M unit :=
  fun s => let (r, s') := f obj s in
           (r, set_calls (calls s ++ [oid self]) s').

Definition __set__ (self : Option) (obj : registry) (value : value) : M unit :=
  (* Validate the new value *)
  bad <- not_allowed self value ;;
  if bad then
    nm <- name self ;;
    raise (ValueError (NotValidValue value nm))
  else
    nm <- name self ;;
    modify (fun s => set_idict (dict_set nm value (idict s)) s) ;;
    (* Trigger any callbacks *)
    match on_change self with
    | Some f => call_on_change self f obj
    | None => ret tt
    end.

End Option.

(** ** The [Config] registry *)

(** An entry of a class [__dict__]: an [Option], or anything else (a
    method, a docstring). *)
Inductive class_attr : Type :=
| AOption (o : Option)
| AOther.

(** A registry type: its own [__dict__] in definition order, and the names
    that its base classes resolve ([Config]'s methods, [object]'s
    attributes). *)
Record class : Type := mkClass {
  cls_dict : list (string * class_attr);
  bases : list string
}.

Fixpoint assoc {A} (k : string) (l : list (string * A)) : option A :=
  match l with
  | [] => None
  | (k', a) :: l' => if String.eqb k k' then Some a else assoc k l'
  end.

Fixpoint mem (k : string) (l : list string) : bool :=
  match l with
  | [] => false
  | k' :: l' => String.eqb k k' || mem k l'
  end.

(** The attribute [name] as the type resolves it, own [__dict__] first. *)
Definition type_lookup (cls : class) (name : string) : option class_attr :=
  match assoc name (cls_dict cls) with
  | Some a => Some a
  | None => if mem name (bases cls) then Some AOther else None
  end.

Module Config.

(** [{k: v for k, v in cls.__dict__.items() if isinstance(v, Option)}] *)
Fixpoint options_of (d : list (string * class_attr)) : list (string * Option) :=
  match d with
  | [] => []
  | (k, AOption o) :: d' => (k, o) :: options_of d'
  | (_, AOther) :: d' => options_of d'
  end.

Definition options (cls : class) : list (string * Option) :=
  options_of (cls_dict cls).

(** [obj.NAME]: an [Option] of the type first, as the data descriptor it
    is, then the instance [__dict__], then any other attribute of the type.
    (The built-in data descriptors of [object], such as [__class__], would
    also come before the instance [__dict__]; the two orders differ only
    for an instance [__dict__] that has such a key.) *)
Definition getattr (cls : class) : registry :=
  fun name =>
    match type_lookup cls name with
    | Some (AOption o) =>
        r <- Option.__get__ o (Some tt) ;;
        match r with
        | GotValue v => ret v
        | GotOption _ => ret (VAttr name)
        end
    | found =>
        d <- gets idict ;;
        match dict_get (KStr name) d with
        | Some v => ret v
        | None =>
            match found with
            | Some _ => ret (VAttr name)
            | None => raise (AttributeError name)
            end
        end
    end.

Definition __init__ (cls : class) : M unit :=
  (* Set each Option's name and default value *)
  for_each (options cls) (fun kv =>
    Option.set_name (snd kv) (KStr (fst kv)) ;;
    modify (fun s => set_idict (dict_set (KStr (fst kv)) (default (snd kv)) (idict s)) s)).

(** [cls()]: a new instance, with an empty [__dict__], initialised. *)
Definition new (cls : class) : M unit :=
  modify (set_idict []) ;;
  __init__ cls.

(** After the check, [super().__setattr__] finds the data descriptor of
    that name on the type and calls its [__set__]. *)
Definition __setattr__ (cls : class) (name : string) (value : value) : M unit :=
  match assoc name (options cls) with
  | None => raise (ValueError (NotValidOption name))
  | Some o => Option.__set__ o (getattr cls) value
  end.

(** The builtin [setattr(self, k, v)]: an attribute name is a string. *)
Definition setattr (cls : class) (k : key) (v : value) : M unit :=
  match k with
  | KNone => raise TypeError
  | KStr name => __setattr__ cls name v
  end.

Definition defaults (cls : class) : dict :=
  map (fun kv => (KStr (fst kv), default (snd kv))) (options cls).

Definition load_config_dict (cls : class) (dct : dict) : M unit :=
  for_each dct (fun kv => setattr cls (fst kv) (snd kv)).

(** [copy(self.__dict__)]: a new dict with the same keys bound to the same
    values, references included. *)
Definition snapshot (cls : class) : M dict :=
  gets idict.

End Config.

(** ** The scoped override *)

(** [with mgr: body], for a manager given by its [__enter__] and
    [__exit__]: [__exit__] receives the exception that left the body, if
    any, and a true result suppresses it; an exception of [__exit__] itself
    replaces the one in flight. The statement yields the value the body
    returned, or nothing when an exception was suppressed. *)
Definition with_ {A} (enter : M unit) (exit_ : option exn -> M bool)
  (body : M A) : M (option A) :=
  fun s =>
    match enter s with
    | (Err e, s1) => (Err e, s1)
    | (Ok _, s1) =>
        match body s1 with
        | (Ok a, s2) =>
            match exit_ None s2 with
            | (Ok _, s3) => (Ok (Some a), s3)
            | (Err e', s3) => (Err e', s3)
            end
        | (Err e, s2) =>
            match exit_ (Some e) s2 with
            | (Ok true, s3) => (Ok None, s3)
            | (Ok false, s3) => (Err e, s3)
            | (Err e', s3) => (Err e', s3)
            end
        end
    end.

(** The attributes of an [_override] object. *)
Record _override : Type := mk_override {
  config : class;
  new_conf : dict;
  initial_conf : dict
}.

Module _override.

Definition __init__ (config : class) (new_conf : dict) : M _override :=
  initial_conf <- Config.snapshot config ;;
  ret (mk_override config new_conf initial_conf).

(** Save original config values; override with new ones. *)
Definition __enter__ (self : _override) : M unit :=
  Config.load_config_dict (config self) (new_conf self).

(** Reset config to initial values; reraise any exceptions. *)
Definition __exit__ (self : _override) (exc : option exn) : M bool :=
  Config.load_config_dict (config self) (initial_conf self) ;;
  ret false.

(** [contextlib.ContextDecorator.__call__]: the decorated function runs
    its body inside [with self:], the same object at every call. *)
Definition __call__ {A} (self : _override) (func : A -> M value) : A -> M value :=
  fun args =>
    r <- with_ (__enter__ self) (__exit__ self) (func args) ;;
    match r with
    | Some v => ret v
    | None => ret VNone
    end.

End _override.

(** [Config.override], with its keyword arguments as a dict. *)
Definition override (cls : class) (new_config : dict) : M _override :=
  _override.__init__ cls new_config.

(** [with config.override(...): body] *)
Definition with_override {A} (cls : class) (new_config : dict) (body : M A)
  : M (option A) :=
  g <- override cls new_config ;;
  with_ (_override.__enter__ g) (_override.__exit__ g) body.

(** ** Mutation in place

    [target[k] = v] for a setting's value [target]: the dict that the
    reference designates is updated where it is. *)
Definition setitem (target : value) (k : key) (v : value) : M unit :=
  match target with
  | VRef l =>
      h <- gets heap ;;
      match nth_error h l with
      | Some (ODict kvs) =>
          modify (set_heap (firstn l h ++ ODict (dict_set k v kvs) :: skipn (S l) h))
      | _ => raise TypeError
      end
  | _ => raise TypeError
  end.

(** ** Logging and the [PyphiConfig] options *)

(** [logging.config.dictConfig] belongs to the standard library: the
    logging subsystem is taken to install the configuration it is given. *)
Definition dictConfig (c : log_config) : M unit :=
  modify (fun s => set_logging (logging s ++ [c]) s).

(** Reconfigure PyPhi logging based on the current configuration. *)
Definition configure_logging (config : registry) : M unit :=
  file_level <- config "LOG_FILE_LEVEL" ;;
  file_filename <- config "LOG_FILE" ;;
  stdout_level <- config "LOG_STDOUT_LEVEL" ;;
  file_on <- config "LOG_FILE_LEVEL" ;;
  stdout_on <- config "LOG_STDOUT_LEVEL" ;;
  h <- gets heap ;;
  dictConfig (mkLogConfig file_level file_filename stdout_level
                ((if py_truth h file_on then ["file"] else []) ++
                 (if py_truth h stdout_on then ["stdout"] else []))).

(** The names that [class Config] defines, and those of [object]. *)
Definition Config_attrs : list string :=
  [ "__module__"; "__init__"; "__str__"; "__setattr__"; "options"; "defaults";
    "load_config_dict"; "load_config_file"; "snapshot"; "override";
    "__dict__"; "__weakref__"; "__doc__" ].

Definition object_attrs : list string :=
  [ "__class__"; "__delattr__"; "__dir__"; "__eq__"; "__format__"; "__ge__";
    "__getattribute__"; "__gt__"; "__hash__"; "__init_subclass__"; "__le__";
    "__lt__"; "__ne__"; "__new__"; "__reduce__"; "__reduce_ex__"; "__repr__";
    "__sizeof__"; "__subclasshook__" ].

(** The option table of [PyphiConfig]; each documentation text is cut short
    to its first sentence. The two dict objects that the class body creates
    as the defaults of [MONGODB_CONFIG] and [REDIS_CONFIG] are the initial
    heap. *)
Definition PyphiConfig_heap : heap_t :=
  [ ODict [(KStr "host", VStr "localhost");
            (KStr "port", VInt 27017%Z);
            (KStr "database_name", VStr "pyphi");
            (KStr "collection_name", VStr "cache")];
    ODict [(KStr "host", VStr "localhost");
            (KStr "port", VInt 6379%Z)] ].

Module PyphiConfig.

Definition ASSUME_CUTS_CANNOT_CREATE_NEW_CONCEPTS : Option :=
  mkOption 0 (VBool false) None None
    (Some "In certain cases, making a cut can actually cause a previously reducible concept to become a proper, irreducible concept.").

Definition CUT_ONE_APPROXIMATION : Option :=
  mkOption 1 (VBool false) None None
    (Some "When determining the MIP for |big_phi|, this restricts the set of system cuts that are considered to only those that cut the inputs or outputs of a single node.").

Definition MEASURE : Option :=
  mkOption 2 (VStr "EMD") None None
    (Some "The measure to use when computing distances between repertoires and concepts.").

Definition PARALLEL_CONCEPT_EVALUATION : Option :=
  mkOption 3 (VBool false) None None
    (Some "Controls whether concepts are evaluated in parallel when computing constellations.").

Definition PARALLEL_CUT_EVALUATION : Option :=
  mkOption 4 (VBool true) None None
    (Some "Controls whether system cuts are evaluated in parallel, which is faster but requires more memory.").

Definition PARALLEL_COMPLEX_EVALUATION : Option :=
  mkOption 5 (VBool false) None None
    (Some "Controls whether systems are evaluated in parallel when computing complexes.").

Definition NUMBER_OF_CORES : Option :=
  mkOption 6 (VInt (-1)%Z) None None
    (Some "Controls the number of CPU cores used to evaluate unidirectional cuts.").

Definition MAXIMUM_CACHE_MEMORY_PERCENTAGE : Option :=
  mkOption 7 (VInt 50%Z) None None
    (Some "PyPhi employs several in-memory caches to speed up computation.").

Definition CACHE_BIGMIPS : Option :=
  mkOption 8 (VBool false) None None
    (Some "Controls whether |BigMip| objects are cached and automatically retrieved.").

Definition CACHE_POTENTIAL_PURVIEWS : Option :=
  mkOption 9 (VBool true) None None
    (Some "Controls whether the potential purviews of mechanisms of a network are cached.").

Definition CACHING_BACKEND : Option :=
  mkOption 10 (VStr "fs") None None
    (Some "Controls whether precomputed results are stored and read from a local filesystem-based cache in the current directory or from a database.").

Definition FS_CACHE_VERBOSITY : Option :=
  mkOption 11 (VInt 0%Z) None None
    (Some "Controls how much caching information is printed if the filesystem cache is used.").

Definition FS_CACHE_DIRECTORY : Option :=
  mkOption 12 (VStr "__pyphi_cache__") None None
    (Some "If the filesystem is used for caching, the cache will be stored in this directory.").

Definition MONGODB_CONFIG : Option :=
  mkOption 13 (VRef 0) None None
    (Some "Set the configuration for the MongoDB database backend (only has an effect if ``CACHING_BACKEND`` is ``'db'``).").

Definition REDIS_CACHE : Option :=
  mkOption 14 (VBool false) None None
    (Some "Specifies whether to use Redis to cache |Mice|.").

Definition REDIS_CONFIG : Option :=
  mkOption 15 (VRef 1) None None
    (Some "Configure the Redis database backend.").

Definition LOG_FILE : Option :=
  mkOption 16 (VStr "pyphi.log") None (Some configure_logging)
    (Some "Controls the name of the log file.").

Definition LOG_FILE_LEVEL : Option :=
  mkOption 17 (VStr "INFO") None (Some configure_logging)
    (Some "Controls the level of log messages written to the log file.").

Definition LOG_STDOUT_LEVEL : Option :=
  mkOption 18 (VStr "WARNING") None (Some configure_logging)
    (Some "Controls the level of log messages written to standard output.").

Definition LOG_CONFIG_ON_IMPORT : Option :=
  mkOption 19 (VBool true) None None
    (Some "Controls whether the configuration is printed when PyPhi is imported.").

Definition PROGRESS_BARS : Option :=
  mkOption 20 (VBool true) None None
    (Some "Controls whether to show progress bars on the console.").

Definition PRECISION : Option :=
  mkOption 21 (VInt 6%Z) None None
    (Some "If ``MEASURE`` is ``EMD``, then the Earth Mover's Distance is calculated with an external C++ library that a numerical optimizer to find a good approximation.").

Definition VALIDATE_SUBSYSTEM_STATES : Option :=
  mkOption 22 (VBool true) None None
    (Some "Controls whether PyPhi checks if the subsystems's state is possible.").

Definition VALIDATE_CONDITIONAL_INDEPENDENCE : Option :=
  mkOption 23 (VBool true) None None
    (Some "Controls whether PyPhi checks if a system's TPM is conditionally independent.").

Definition SINGLE_MICRO_NODES_WITH_SELFLOOPS_HAVE_PHI : Option :=
  mkOption 24 (VBool false) None None
    (Some "If set to ``True``, the Phi value of single micro-node subsystems is the difference between their unpartitioned constellation (a single concept) and the null concept.").

Definition REPR_VERBOSITY : Option :=
  mkOption 25 (VInt 2%Z) (Some [VInt 0%Z; VInt 1%Z; VInt 2%Z]) None
    (Some "Controls the verbosity of ``__repr__`` methods on PyPhi objects.").

Definition PRINT_FRACTIONS : Option :=
  mkOption 26 (VBool true) None None
    (Some "Controls whether numbers in a ``repr`` are printed as fractions.").

Definition PARTITION_TYPE : Option :=
  mkOption 27 (VStr "BI") (Some [VStr "BI"; VStr "TRI"; VStr "ALL"]) None
    (Some "Controls the type of partition used for |small_phi| computations.").

Definition PICK_SMALLEST_PURVIEW : Option :=
  mkOption 28 (VBool false) None None
    (Some "When computing MICE, it is possible for several MIPs to have the same |small_phi| value.").

Definition USE_SMALL_PHI_DIFFERENCE_FOR_CONSTELLATION_DISTANCE : Option :=
  mkOption 29 (VBool false) None None
    (Some "If set to ``True``, the distance between constellations (when computing a |BigMip|) is calculated using the difference between the sum of |small_phi| in the constellations instead of the extended EMD.").

Definition SYSTEM_CUTS : Option :=
  mkOption 30 (VStr "3.0_STYLE") (Some [VStr "3.0_STYLE"; VStr "CONCEPT_STYLE"]) None
    (Some "If set to ``'3.0_STYLE'``, then traditional IIT 3.0 cuts will be used when computing |big_phi|.").

End PyphiConfig.

Definition PyphiConfig : class :=
  mkClass
    [ ("__module__", AOther);
      ("ASSUME_CUTS_CANNOT_CREATE_NEW_CONCEPTS", AOption PyphiConfig.ASSUME_CUTS_CANNOT_CREATE_NEW_CONCEPTS);
      ("CUT_ONE_APPROXIMATION", AOption PyphiConfig.CUT_ONE_APPROXIMATION);
      ("MEASURE", AOption PyphiConfig.MEASURE);
      ("PARALLEL_CONCEPT_EVALUATION", AOption PyphiConfig.PARALLEL_CONCEPT_EVALUATION);
      ("PARALLEL_CUT_EVALUATION", AOption PyphiConfig.PARALLEL_CUT_EVALUATION);
      ("PARALLEL_COMPLEX_EVALUATION", AOption PyphiConfig.PARALLEL_COMPLEX_EVALUATION);
      ("NUMBER_OF_CORES", AOption PyphiConfig.NUMBER_OF_CORES);
      ("MAXIMUM_CACHE_MEMORY_PERCENTAGE", AOption PyphiConfig.MAXIMUM_CACHE_MEMORY_PERCENTAGE);
      ("CACHE_BIGMIPS", AOption PyphiConfig.CACHE_BIGMIPS);
      ("CACHE_POTENTIAL_PURVIEWS", AOption PyphiConfig.CACHE_POTENTIAL_PURVIEWS);
      ("CACHING_BACKEND", AOption PyphiConfig.CACHING_BACKEND);
      ("FS_CACHE_VERBOSITY", AOption PyphiConfig.FS_CACHE_VERBOSITY);
      ("FS_CACHE_DIRECTORY", AOption PyphiConfig.FS_CACHE_DIRECTORY);
      ("MONGODB_CONFIG", AOption PyphiConfig.MONGODB_CONFIG);
      ("REDIS_CACHE", AOption PyphiConfig.REDIS_CACHE);
      ("REDIS_CONFIG", AOption PyphiConfig.REDIS_CONFIG);
      ("LOG_FILE", AOption PyphiConfig.LOG_FILE);
      ("LOG_FILE_LEVEL", AOption PyphiConfig.LOG_FILE_LEVEL);
      ("LOG_STDOUT_LEVEL", AOption PyphiConfig.LOG_STDOUT_LEVEL);
      ("LOG_CONFIG_ON_IMPORT", AOption PyphiConfig.LOG_CONFIG_ON_IMPORT);
      ("PROGRESS_BARS", AOption PyphiConfig.PROGRESS_BARS);
      ("PRECISION", AOption PyphiConfig.PRECISION);
      ("VALIDATE_SUBSYSTEM_STATES", AOption PyphiConfig.VALIDATE_SUBSYSTEM_STATES);
      ("VALIDATE_CONDITIONAL_INDEPENDENCE", AOption PyphiConfig.VALIDATE_CONDITIONAL_INDEPENDENCE);
      ("SINGLE_MICRO_NODES_WITH_SELFLOOPS_HAVE_PHI", AOption PyphiConfig.SINGLE_MICRO_NODES_WITH_SELFLOOPS_HAVE_PHI);
      ("REPR_VERBOSITY", AOption PyphiConfig.REPR_VERBOSITY);
      ("PRINT_FRACTIONS", AOption PyphiConfig.PRINT_FRACTIONS);
      ("PARTITION_TYPE", AOption PyphiConfig.PARTITION_TYPE);
      ("PICK_SMALLEST_PURVIEW", AOption PyphiConfig.PICK_SMALLEST_PURVIEW);
      ("USE_SMALL_PHI_DIFFERENCE_FOR_CONSTELLATION_DISTANCE", AOption PyphiConfig.USE_SMALL_PHI_DIFFERENCE_FOR_CONSTELLATION_DISTANCE);
      ("SYSTEM_CUTS", AOption PyphiConfig.SYSTEM_CUTS);
      ("__doc__", AOther) ]
    (Config_attrs ++ object_attrs).

(** The state in which the module creates [config = PyphiConfig()]. *)
Definition module_state : State :=
  mkState [] [] PyphiConfig_heap [] [].

Definition blank : State := mkState [] [] [] [] [].

(** ** Loading a file and initialising

    What lies outside the module is taken as given: whether a path exists,
    what [open] and [yaml.load] make of a file, the version string of
    [__about__], and the text that [pprint.pformat] gives for the
    registry. *)

(** What [yaml.load] returns: a mapping, or any other document ([None] for
    an empty file, a scalar, a sequence). *)
Inductive document : Type :=
| DMapping (d : dict)
| DOther.

(** [yaml_load filename] stands for [open(filename)] followed by
    [yaml.load(f)], the file being closed on every path. A document that is
    not a mapping has no [items]. *)
Definition load_config_file (yaml_load : string -> M document) (cls : class)
  (filename : string) : M unit :=
  doc <- yaml_load filename ;;
  match doc with
  | DMapping dct => Config.load_config_dict cls dct
  | DOther => raise (AttributeError "items")
  end.

Record environment : Type := mkEnvironment {
  path_exists : string -> bool;
  yaml_load : string -> M document;
  version : string;
  pformat : State -> string
}.

Definition PYPHI_CONFIG_FILENAME : string := "pyphi_config.yml".

(** The calls of [log.info] that [initialize] makes, by message. *)
Inductive log_record : Type :=
| PyPhi_version (v : string)            (* 'PyPhi v%s' *)
| Loaded_configuration (file : string)  (* 'Loaded configuration from `./%s`' *)
| Using_default_configuration
| Current_configuration (text : string).

(** Initialize PyPhi config. The records handed to [log.info], in order,
    are what the computation returns. *)
Definition initialize (env : environment) : M (list log_record) :=
  (* Try and load the config file *)
  file_loaded <-
    (if path_exists env PYPHI_CONFIG_FILENAME
     then load_config_file (yaml_load env) PyphiConfig PYPHI_CONFIG_FILENAME ;;
          ret true
     else ret false) ;;
  (* Setup logging *)
  configure_logging (Config.getattr PyphiConfig) ;;
  (* Log the PyPhi version and loaded configuration *)
  flag <- Config.getattr PyphiConfig "LOG_CONFIG_ON_IMPORT" ;;
  h <- gets heap ;;
  if py_truth h flag then
    text <- gets (pformat env) ;;
    ret [ PyPhi_version (version env);
          (if file_loaded : bool
           then Loaded_configuration PYPHI_CONFIG_FILENAME
           else Using_default_configuration);
          Current_configuration text ]
  else ret [].

(** * The vocabulary of the properties *)

(** The dict that results from assigning the items of [d], in order, in
    [acc]. *)
Definition write_all (d acc : dict) : dict :=
  fold_left (fun a kv => dict_set (fst kv) (snd kv) a) d acc.

(** A class [__dict__] has no repeated key. *)
Definition wf_class (cls : class) : Prop :=
  NoDup (map fst (cls_dict cls)).

(** No [Option] object is placed under two names of the class. *)
Definition distinct_options (cls : class) : Prop :=
  NoDup (map (fun kv => oid (snd kv)) (Config.options cls)).

(** Absence of repetition in a list, as a computation. *)
Fixpoint distinctb {A} (eqb : A -> A -> bool) (l : list A) : bool :=
  match l with
  | [] => true
  | x :: l' => negb (existsb (eqb x) l') && distinctb eqb l'
  end.

(** Every declared [Option] carries the name it is declared under. *)
Definition bound (cls : class) (s : State) : Prop :=
  forall k o, In (k, o) (Config.options cls) ->
              name_lookup (oid o) (names s) = KStr k.

(** The keys of the instance [__dict__] are the declared names, in
    declaration order. *)
Definition keyed (cls : class) (s : State) : Prop :=
  dict_keys (idict s) = map (fun kv => KStr (fst kv)) (Config.options cls).

(** The state of a constructed registry. *)
Definition Inv (cls : class) (s : State) : Prop :=
  bound cls s /\ keyed cls s.

(** The outcome of [self.values and value not in self.values] on heap [h]. *)
Definition check (o : Option) (h : heap_t) (v : value) : result bool :=
  match values o with
  | None => Ok false
  | Some [] => Ok false
  | Some vs =>
      match py_in h v vs with
      | Ok b => Ok (negb b)
      | Err e => Err e
      end
  end.

(** A hook that, on a constructed registry, returns normally and touches
    nothing but the logging subsystem. *)
Definition inert (cls : class) (f : registry -> M unit) : Prop :=
  forall s, Inv cls s ->
            exists l, f (Config.getattr cls) s = (Ok tt, set_logging l s).

(** Every hook of the class is inert. *)
Definition inert_class (cls : class) : Prop :=
  forall k o f, In (k, o) (Config.options cls) -> on_change o = Some f ->
                inert cls f.

(** The identities entered in [calls] by one write through [o]. *)
Definition hook_ids (o : Option) : list nat :=
  match on_change o with
  | Some _ => [oid o]
  | None => []
  end.

(** The state in which the value is committed and no hook has run yet. *)
Definition committed (o : Option) (v : value) (s : State) : State :=
  set_idict (dict_set (name_lookup (oid o) (names s)) v (idict s)) s.

(** An entry that names a declared setting and carries a value that its
    descriptor accepts on heap [h]. *)
Definition entry_ok (cls : class) (h : heap_t) (kv : key * value) : Prop :=
  exists n o, fst kv = KStr n /\ assoc n (Config.options cls) = Some o /\
              check o h (snd kv) = Ok false.

(** The hook that the write of key [k] calls, and the hooks that a load of
    [d] calls when every write succeeds, in order. *)
Definition hook_of (cls : class) (k : key) : list nat :=
  match k with
  | KStr n =>
      match assoc n (Config.options cls) with
      | Some o => hook_ids o
      | None => []
      end
  | KNone => []
  end.

Definition hooked (cls : class) (d : dict) : list nat :=
  flat_map (fun kv => hook_of cls (fst kv)) d.

(** Every current value is one that its descriptor accepts. *)
Definition values_allowed (cls : class) (s : State) : Prop :=
  forall n o v, assoc n (Config.options cls) = Some o ->
                dict_get (KStr n) (idict s) = Some v ->
                check o (heap s) v = Ok false.

(** The name bindings and the [__dict__] that the loop of [Config.__init__]
    produces. *)
Definition bind_all (l : list (string * Option)) (ns : list (nat * key))
  : list (nat * key) :=
  fold_left (fun ns kv => name_bind (oid (snd kv)) (KStr (fst kv)) ns) l ns.

Definition default_all (l : list (string * Option)) (d : dict) : dict :=
  fold_left (fun d kv => dict_set (KStr (fst kv)) (default (snd kv)) d) l d.

(** The name under which [id] is bound last in [l], if any. *)
Fixpoint last_key (id : nat) (l : list (string * Option)) : option string :=
  match l with
  | [] => None
  | (k, o) :: l' =>
      match last_key id l' with
      | Some k' => Some k'
      | None => if Nat.eqb id (oid o) then Some k else None
      end
  end.

(** The content that [snap] holds under [k], read through heap [h]. *)
Definition held (h : heap_t) (snap : dict) (k : key) : option tree :=
  match dict_get k snap with
  | Some v => deref recursion_limit h v
  | None => None
  end.

(** Every default is a value that its own descriptor accepts. *)
Definition defaults_allowed (cls : class) (h : heap_t) : Prop :=
  forall n o, assoc n (Config.options cls) = Some o ->
              check o h (default o) = Ok false.

(** A key whose setting has neither a constraint nor a hook. *)
Definition free (cls : class) (k : key) : Prop :=
  exists n o, k = KStr n /\ assoc n (Config.options cls) = Some o /\
              values o = None /\ on_change o = None.

(** The keys that precede [LOG_FILE] in [PyphiConfig]. *)
Definition before_LOG_FILE : list key :=
  firstn 16 (map (fun kv => KStr (fst kv)) (Config.options PyphiConfig)).

(** The outcome of a [with] statement whose manager does not suppress:
    that of its body. *)
Definition completed {A} (r : result A) : result (option A) :=
  match r with
  | Ok a => Ok (Some a)
  | Err e => Err e
  end.




(** * Registries and programs used as examples *)

(** The module's own registry, [config = PyphiConfig()]. *)
Definition boot : State := snd (Config.new PyphiConfig module_state).

(** A registry whose one setting declares an empty list of allowed values:
    [A = Option(0, values=[])]. *)
Definition EmptyValues_A : Option := mkOption 0 (VInt 0) (Some []) None None.

Definition EmptyValues : class :=
  mkClass [("A", AOption EmptyValues_A)] (Config_attrs ++ object_attrs).

(** One [Option] object placed under two names of a class:
    [A = B = Option(1)]. *)
Definition Shared : Option := mkOption 0 (VInt 1) None None None.

Definition TwoNames : class :=
  mkClass [("A", AOption Shared); ("B", AOption Shared)]
          (Config_attrs ++ object_attrs).

(** A function that reads [PRECISION], for decoration. *)
Definition read_precision (_ : unit) : M value :=
  Config.getattr PyphiConfig "PRECISION".

(** [f = config.override(PRECISION=100)(read_precision)], then
    [config.PRECISION = 7], then a call of [f]: the values of [PRECISION]
    just before the call, inside it, and just after it. *)
Definition decorate_then_write_then_call : M (value * value * value) :=
  g <- override PyphiConfig [(KStr "PRECISION", VInt 100)] ;;
  Config.setattr PyphiConfig (KStr "PRECISION") (VInt 7) ;;
  before <- Config.getattr PyphiConfig "PRECISION" ;;
  inside <- _override.__call__ g read_precision tt ;;
  after <- Config.getattr PyphiConfig "PRECISION" ;;
  ret (before, inside, after).

(** The same with the guard object kept and entered later as a block:
    [g = config.override(PRECISION=100)], [config.PRECISION = 7],
    [with g: pass]. *)
Definition construct_then_write_then_enter : M (value * value) :=
  g <- override PyphiConfig [(KStr "PRECISION", VInt 100)] ;;
  Config.setattr PyphiConfig (KStr "PRECISION") (VInt 7) ;;
  before <- Config.getattr PyphiConfig "PRECISION" ;;
  with_ (_override.__enter__ g) (_override.__exit__ g) (ret tt) ;;
  after <- Config.getattr PyphiConfig "PRECISION" ;;
  ret (before, after).

(** [snap = config.snapshot()] followed by
    [config.REDIS_CONFIG['port'] = 1234]. *)
Definition snapshot_then_mutate : M dict :=
  snap <- Config.snapshot PyphiConfig ;;
  d <- Config.getattr PyphiConfig "REDIS_CONFIG" ;;
  setitem d (KStr "port") (VInt 1234) ;;
  ret snap.

(** A registry whose one setting has a default outside its allowed
    values: [A = Option(0, values=[1, 2])]. *)
Definition InvalidDefault_A : Option :=
  mkOption 0 (VInt 0) (Some [VInt 1; VInt 2]) None None.

Definition InvalidDefault : class :=
  mkClass [("A", AOption InvalidDefault_A)] (Config_attrs ++ object_attrs).

(** A body that changes a setting and then raises. *)
Definition write_then_raise : M unit :=
  Config.setattr PyphiConfig (KStr "MEASURE") (VStr "KLD") ;;
  raise (Exception_ "boom").

(** Two hooks, one that raises and one that does nothing, and a registry
    with a setting for each: [A = Option(0, on_change=failing_hook)],
    [B = Option(0, on_change=quiet_hook)]. *)
Definition failing_hook (_ : registry) : M unit :=
  raise (Exception_ "hook failed").

Definition quiet_hook (_ : registry) : M unit := ret tt.

Definition TwoHooks : class :=
  mkClass [("A", AOption (mkOption 0 (VInt 0) None (Some failing_hook) None));
           ("B", AOption (mkOption 1 (VInt 0) None (Some quiet_hook) None))]
          (Config_attrs ++ object_attrs).

(** The guard that [TwoHooks().override()] constructs. *)
Definition TwoHooks_guard : _override :=
  mk_override TwoHooks [] (idict (snd (Config.new TwoHooks blank))).

(** The guard of [with config.override(PRECISION=100):] on the module's
    registry, and the state inside the block. *)
Definition precision_guard : _override :=
  mk_override PyphiConfig [(KStr "PRECISION", VInt 100)] (idict boot).

Definition inside_block : State :=
  snd (_override.__enter__ precision_guard boot).


Definition file_with (doc : document) : environment :=
  mkEnvironment (fun f => String.eqb f PYPHI_CONFIG_FILENAME)
                (fun _ => ret doc)
                "1.0.0" (fun _ => "{}").

(** * Properties *)

(** ** Keys *)

Lemma key_eqb_spec (a b : key) : reflect (a = b) (key_eqb a b).
Proof.
  destruct a as [|x], b as [|y]; simpl; try (constructor; congruence).
  destruct (String.eqb_spec x y); constructor; congruence.
Qed.

Lemma key_eqb_refl (a : key) : key_eqb a a = true.
Proof. destruct (key_eqb_spec a a); congruence. Qed.

Lemma key_eqb_neq (a b : key) : a <> b -> key_eqb a b = false.
Proof. destruct (key_eqb_spec a b); congruence. Qed.

(** ** Dicts and name bindings *)

Lemma dict_get_set_same (k : key) (v : value) (d : dict) :
  dict_get k (dict_set k v d) = Some v.
Proof.
  induction d as [|[k' v'] d IH]; simpl.
  - now rewrite key_eqb_refl.
  - destruct (key_eqb k k') eqn:E; simpl; rewrite E; auto.
Qed.

Lemma dict_get_set_other (k k' : key) (v : value) (d : dict) :
  k <> k' -> dict_get k' (dict_set k v d) = dict_get k' d.
Proof.
  intros Hne. induction d as [|[k0 v0] d IH]; simpl.
  - rewrite key_eqb_neq; congruence.
  - destruct (key_eqb_spec k k0) as [->|Hk]; simpl.
    + rewrite key_eqb_neq; congruence.
    + destruct (key_eqb k' k0); auto.
Qed.

Lemma dict_get_in_keys (k : key) (d : dict) :
  In k (dict_keys d) -> exists v, dict_get k d = Some v.
Proof.
  induction d as [|[k' v'] d IH]; simpl; [tauto|].
  intros [->|Hin].
  - rewrite key_eqb_refl. eauto.
  - destruct (key_eqb k k'); eauto.
Qed.

Lemma dict_get_not_in_keys (k : key) (d : dict) :
  ~ In k (dict_keys d) -> dict_get k d = None.
Proof.
  induction d as [|[k' v'] d IH]; simpl; [tauto|].
  intros Hn. rewrite key_eqb_neq by (intros ->; tauto). apply IH. tauto.
Qed.

Lemma dict_get_some_in (k : key) (v : value) (d : dict) :
  dict_get k d = Some v -> In (k, v) d.
Proof.
  induction d as [|[k' v'] d IH]; simpl; [discriminate|].
  destruct (key_eqb_spec k k') as [->|Hk].
  - intros [= ->]. now left.
  - intros H. right. auto.
Qed.

Lemma dict_get_of_in (k : key) (v : value) (d : dict) :
  NoDup (dict_keys d) -> In (k, v) d -> dict_get k d = Some v.
Proof.
  induction d as [|[k' v'] d IH]; simpl; [tauto|].
  intros Hnd [[= -> ->]|Hin].
  - now rewrite key_eqb_refl.
  - inversion Hnd as [|? ? Hk Hd]; subst.
    rewrite key_eqb_neq; [auto|].
    intros ->. apply Hk. change k' with (fst (k', v)). now apply in_map.
Qed.

Lemma dict_keys_set_in (k : key) (v : value) (d : dict) :
  In k (dict_keys d) -> dict_keys (dict_set k v d) = dict_keys d.
Proof.
  induction d as [|[k' v'] d IH]; simpl; [tauto|].
  intros Hin. destruct (key_eqb_spec k k') as [->|Hk]; simpl; [reflexivity|].
  f_equal. apply IH. destruct Hin; congruence.
Qed.

Lemma dict_set_app_notin (k : key) (v : value) (pre d : dict) :
  ~ In k (dict_keys pre) -> dict_set k v (pre ++ d) = pre ++ dict_set k v d.
Proof.
  induction pre as [|[k' v'] pre IH]; simpl; [reflexivity|].
  intros Hn. rewrite key_eqb_neq by (intros ->; tauto).
  f_equal. apply IH. tauto.
Qed.

(** Writing the items of [d], in order, over a dict with the same keys in
    the same order yields [d]. *)
Lemma write_all_prefix (d : dict) : forall (pre d1 : dict),
  dict_keys d1 = dict_keys d ->
  NoDup (dict_keys pre ++ dict_keys d) ->
  write_all d (pre ++ d1) = pre ++ d.
Proof.
  unfold write_all.
  induction d as [|[k v] d IH]; intros pre d1 Hk Hnd.
  - destruct d1; [reflexivity|discriminate].
  - destruct d1 as [|[k1 v1] d1]; [discriminate|].
    simpl in Hk. injection Hk as -> Hk. simpl.
    rewrite dict_set_app_notin.
    + simpl. rewrite key_eqb_refl.
      change (pre ++ (k, v) :: d1) with (pre ++ [(k, v)] ++ d1).
      rewrite app_assoc. rewrite IH; auto.
      * now rewrite <- app_assoc.
      * unfold dict_keys in *. rewrite map_app. simpl.
        rewrite <- app_assoc. exact Hnd.
    + apply NoDup_remove_2 in Hnd. intros Hin. apply Hnd.
      apply in_or_app. now left.
Qed.

Lemma write_all_same_keys (d d1 : dict) :
  dict_keys d1 = dict_keys d -> NoDup (dict_keys d) -> write_all d d1 = d.
Proof.
  intros Hk Hnd. apply (write_all_prefix d [] d1 Hk Hnd).
Qed.

Lemma name_lookup_bind_same (id : nat) (k : key) (ns : list (nat * key)) :
  name_lookup id (name_bind id k ns) = k.
Proof.
  induction ns as [|[id' k'] ns IH]; simpl.
  - now rewrite Nat.eqb_refl.
  - destruct (Nat.eqb id id') eqn:E; simpl; rewrite E; auto.
Qed.

Lemma name_lookup_bind_other (id id' : nat) (k : key) (ns : list (nat * key)) :
  id <> id' -> name_lookup id' (name_bind id k ns) = name_lookup id' ns.
Proof.
  intros Hne. induction ns as [|[i0 k0] ns IH]; simpl.
  - destruct (Nat.eqb_spec id' id); congruence.
  - destruct (Nat.eqb_spec id i0) as [->|Hi]; simpl.
    + destruct (Nat.eqb_spec id' i0); congruence.
    + destruct (Nat.eqb id' i0); auto.
Qed.

(** ** Well-formed registry types *)

Lemma distinctb_sound {A} (eqb : A -> A -> bool) (l : list A) :
  (forall x y, x = y -> eqb x y = true) ->
  distinctb eqb l = true -> NoDup l.
Proof.
  intros Heq. induction l as [|x l IH]; simpl; intros H; constructor.
  - apply andb_prop in H as [H _]. intros Hin.
    assert (existsb (eqb x) l = true) as E
      by (apply existsb_exists; exists x; auto).
    now rewrite E in H.
  - apply andb_prop in H as [_ H]. auto.
Qed.

Lemma wf_class_by_eval (cls : class) :
  distinctb String.eqb (map fst (cls_dict cls)) = true -> wf_class cls.
Proof.
  apply distinctb_sound. intros x y ->. apply String.eqb_refl.
Qed.

Lemma distinct_options_by_eval (cls : class) :
  distinctb Nat.eqb (map (fun kv => oid (snd kv)) (Config.options cls)) = true ->
  distinct_options cls.
Proof.
  apply distinctb_sound. intros x y ->. apply Nat.eqb_refl.
Qed.

Lemma assoc_in {A} (k : string) (a : A) (l : list (string * A)) :
  assoc k l = Some a -> In (k, a) l.
Proof.
  induction l as [|[k' a'] l IH]; simpl; [discriminate|].
  destruct (String.eqb_spec k k') as [->|Hk].
  - intros [= ->]. now left.
  - intros H. right. auto.
Qed.

Lemma assoc_none {A} (k : string) (l : list (string * A)) :
  assoc k l = None -> ~ In k (map fst l).
Proof.
  induction l as [|[k' a'] l IH]; simpl; [tauto|].
  destruct (String.eqb_spec k k') as [->|Hk]; [discriminate|].
  intros H [E|Hin]; [congruence|]. now apply IH.
Qed.

Lemma assoc_of_in {A} (k : string) (a : A) (l : list (string * A)) :
  NoDup (map fst l) -> In (k, a) l -> assoc k l = Some a.
Proof.
  induction l as [|[k' a'] l IH]; simpl; [tauto|].
  intros Hnd [[= -> ->]|Hin].
  - now rewrite String.eqb_refl.
  - inversion Hnd as [|? ? Hk Hd]; subst.
    destruct (String.eqb_spec k k') as [->|Hne]; [|auto].
    exfalso. apply Hk. change k' with (fst (k', a)). now apply in_map.
Qed.

Lemma options_of_in (k : string) (o : Option) (d : list (string * class_attr)) :
  In (k, o) (Config.options_of d) <-> In (k, AOption o) d.
Proof.
  induction d as [|[k' [o'|]] d IH]; simpl; [tauto| |].
  - rewrite IH. split; intros [E|H]; auto; left; congruence.
  - rewrite IH. split; [auto|]. intros [E|H]; [discriminate|auto].
Qed.

Lemma options_of_keys (k : string) (d : list (string * class_attr)) :
  In k (map fst (Config.options_of d)) -> In k (map fst d).
Proof.
  induction d as [|[k' [o'|]] d IH]; simpl; tauto.
Qed.

Lemma options_of_nodup (d : list (string * class_attr)) :
  NoDup (map fst d) -> NoDup (map fst (Config.options_of d)).
Proof.
  induction d as [|[k' [o'|]] d IH]; simpl; intros Hnd;
    inversion Hnd as [|? ? Hk Hd]; subst; auto.
  constructor; auto. intros Hin. apply Hk. now apply options_of_keys.
Qed.

(** Under a well-formed class, the descriptor that [__setattr__] finds
    among [options()] is the attribute that the type resolves. *)
Lemma type_lookup_option (cls : class) (name : string) (o : Option) :
  wf_class cls ->
  assoc name (Config.options cls) = Some o ->
  type_lookup cls name = Some (AOption o).
Proof.
  intros Hwf H. unfold type_lookup.
  apply assoc_in in H. apply options_of_in in H.
  now rewrite (assoc_of_in _ _ _ Hwf H).
Qed.

Lemma type_lookup_not_option (cls : class) (name : string) :
  assoc name (Config.options cls) = None ->
  forall o, type_lookup cls name <> Some (AOption o).
Proof.
  intros H o Ho. unfold type_lookup in Ho.
  destruct (assoc name (cls_dict cls)) as [a|] eqn:E.
  - injection Ho as ->. apply assoc_in in E. apply options_of_in in E.
    apply assoc_none in H. apply H.
    change name with (fst (name, o)). now apply in_map.
  - destruct (mem name (bases cls)); discriminate.
Qed.

(** ** The registry invariant *)

Lemma not_allowed_check (o : Option) (v : value) (s : State) :
  Option.not_allowed o v s =
  (match check o (heap s) v with Ok b => Ok b | Err e => Err e end, s).
Proof.
  unfold Option.not_allowed, check.
  destruct (values o) as [[|x vs]|]; try reflexivity.
  unfold bind, gets. destruct (py_in (heap s) v (x :: vs)); reflexivity.
Qed.

(** The three ways through [Option.__set__]. *)
Lemma set_rejected (o : Option) (obj : registry) (v : value) (s : State) :
  check o (heap s) v = Ok true ->
  Option.__set__ o obj v s =
  (Err (ValueError (NotValidValue v (name_lookup (oid o) (names s)))), s).
Proof.
  intros H. unfold Option.__set__, bind. rewrite not_allowed_check, H.
  reflexivity.
Qed.

Lemma set_check_raises (o : Option) (obj : registry) (v : value) (s : State) e :
  check o (heap s) v = Err e ->
  Option.__set__ o obj v s = (Err e, s).
Proof.
  intros H. unfold Option.__set__, bind. rewrite not_allowed_check, H.
  reflexivity.
Qed.

Lemma set_accepted (o : Option) (obj : registry) (v : value) (s : State) :
  check o (heap s) v = Ok false ->
  Option.__set__ o obj v s =
  match on_change o with
  | Some f => Option.call_on_change o f obj (committed o v s)
  | None => (Ok tt, committed o v s)
  end.
Proof.
  intros H. unfold Option.__set__, bind. rewrite not_allowed_check, H.
  unfold Option.name, gets, modify, committed.
  destruct (on_change o); reflexivity.
Qed.

Lemma getattr_option (cls : class) (name : string) (o : Option) (s : State) :
  wf_class cls ->
  assoc name (Config.options cls) = Some o ->
  Config.getattr cls name s =
  match dict_get (name_lookup (oid o) (names s)) (idict s) with
  | Some v => (Ok v, s)
  | None => (Err (KeyError (name_lookup (oid o) (names s))), s)
  end.
Proof.
  intros Hwf H. unfold Config.getattr.
  rewrite (type_lookup_option _ _ _ Hwf H).
  unfold Option.__get__, Option.name, bind, gets.
  destruct (dict_get _ _); reflexivity.
Qed.

(** ** The write path on a constructed registry *)

Lemma KStr_map_nodup (l : list string) :
  NoDup l -> NoDup (map KStr l).
Proof.
  induction 1 as [|x l Hx Hl IH]; simpl; constructor; auto.
  intros Hin. apply in_map_iff in Hin as [y [[= ->] Hy]]. contradiction.
Qed.

Section Registry.

Variable cls : class.
Hypothesis Hwf : wf_class cls.

Lemma option_names_nodup : NoDup (map fst (Config.options cls)).
Proof. apply options_of_nodup, Hwf. Qed.

Lemma declared_of_in (n : string) (o : Option) :
  In (n, o) (Config.options cls) -> assoc n (Config.options cls) = Some o.
Proof. apply assoc_of_in, option_names_nodup. Qed.

Lemma keyed_nodup (s : State) : keyed cls s -> NoDup (dict_keys (idict s)).
Proof.
  unfold keyed. intros ->. rewrite <- map_map.
  apply KStr_map_nodup, option_names_nodup.
Qed.

Lemma keyed_declared (s : State) (n : string) (o : Option) :
  keyed cls s -> assoc n (Config.options cls) = Some o ->
  In (KStr n) (dict_keys (idict s)).
Proof.
  unfold keyed. intros -> H. apply assoc_in in H.
  apply in_map_iff. exists (n, o). auto.
Qed.

Lemma keyed_undeclared (s : State) (n : string) :
  keyed cls s -> assoc n (Config.options cls) = None ->
  dict_get (KStr n) (idict s) = None.
Proof.
  intros Hk H. apply dict_get_not_in_keys. rewrite Hk.
  intros Hin. apply in_map_iff in Hin as [[n' o] [[= ->] Hin]].
  apply assoc_none in H. apply H.
  change n with (fst (n, o)). now apply in_map.
Qed.

Lemma keyed_entry (s : State) (k : key) (v : value) :
  keyed cls s -> In (k, v) (idict s) ->
  exists n o, k = KStr n /\ assoc n (Config.options cls) = Some o /\
              dict_get k (idict s) = Some v.
Proof.
  intros Hk Hin.
  assert (In k (dict_keys (idict s))) as Hkey
    by (change k with (fst (k, v)); now apply in_map).
  rewrite Hk in Hkey. apply in_map_iff in Hkey as [[n o] [<- Ho]].
  exists n, o. simpl. split; [reflexivity|]. split.
  - now apply declared_of_in.
  - apply dict_get_of_in; [now apply keyed_nodup | exact Hin].
Qed.

Lemma committed_is (s : State) (n : string) (o : Option) (v : value) :
  bound cls s -> assoc n (Config.options cls) = Some o ->
  committed o v s = set_idict (dict_set (KStr n) v (idict s)) s.
Proof.
  intros Hb H. unfold committed. now rewrite (Hb n o (assoc_in _ _ _ H)).
Qed.

Lemma committed_Inv (s : State) (n : string) (o : Option) (v : value) :
  Inv cls s -> assoc n (Config.options cls) = Some o ->
  Inv cls (committed o v s).
Proof.
  intros [Hb Hk] H. rewrite (committed_is s n o v Hb H). split.
  - exact Hb.
  - unfold keyed. simpl. rewrite dict_keys_set_in; [exact Hk|].
    now apply (keyed_declared s n o).
Qed.

(** A write that passes both checks, on a constructed registry. *)
Lemma setattr_accept_hook (n : string) (o : Option) (v : value) (s : State) :
  (forall f, on_change o = Some f -> inert cls f) ->
  Inv cls s ->
  assoc n (Config.options cls) = Some o ->
  check o (heap s) v = Ok false ->
  exists l,
    Config.setattr cls (KStr n) v s =
    (Ok tt, mkState (names s) (dict_set (KStr n) v (idict s)) (heap s) l
                    (calls s ++ hook_ids o)).
Proof.
  intros Hin HI H Hc. unfold Config.setattr, Config.__setattr__. rewrite H.
  rewrite (set_accepted _ _ _ _ Hc). unfold hook_ids.
  destruct (on_change o) as [f|] eqn:Ef.
  - destruct (Hin f eq_refl _ (committed_Inv s n o v HI H)) as [l Hl].
    exists l. unfold Option.call_on_change. rewrite Hl.
    rewrite (committed_is s n o v (proj1 HI) H). reflexivity.
  - exists (logging s). rewrite (committed_is s n o v (proj1 HI) H).
    rewrite app_nil_r. reflexivity.
Qed.

Hypothesis Hinert : inert_class cls.

Lemma setattr_accept (n : string) (o : Option) (v : value) (s : State) :
  Inv cls s ->
  assoc n (Config.options cls) = Some o ->
  check o (heap s) v = Ok false ->
  exists l,
    Config.setattr cls (KStr n) v s =
    (Ok tt, mkState (names s) (dict_set (KStr n) v (idict s)) (heap s) l
                    (calls s ++ hook_ids o)).
Proof.
  intros HI H Hc. apply setattr_accept_hook; auto.
  intros f Hf. exact (Hinert n o f (assoc_in _ _ _ H) Hf).
Qed.

(** Every write either fails and changes nothing, or is an accepted write. *)
Lemma setattr_cases (k : key) (v : value) (s : State) (r : result unit) (s' : State) :
  Inv cls s ->
  Config.setattr cls k v s = (r, s') ->
  (exists e, r = Err e /\ s' = s) \/
  (r = Ok tt /\
   exists n o l, k = KStr n /\ assoc n (Config.options cls) = Some o /\
     check o (heap s) v = Ok false /\
     s' = mkState (names s) (dict_set (KStr n) v (idict s)) (heap s) l
                  (calls s ++ hook_ids o)).
Proof.
  intros HI H. destruct k as [|n].
  - injection H as <- <-. left. eauto.
  - destruct (assoc n (Config.options cls)) as [o|] eqn:Eo.
    + destruct (check o (heap s) v) as [[|]|e] eqn:Ec.
      * unfold Config.setattr, Config.__setattr__ in H. rewrite Eo in H.
        rewrite (set_rejected _ _ _ _ Ec) in H. injection H as <- <-.
        left. eauto.
      * destruct (setattr_accept n o v s HI Eo Ec) as [l Hl].
        rewrite Hl in H. injection H as <- <-.
        right. split; [reflexivity|]. exists n, o, l. auto.
      * unfold Config.setattr, Config.__setattr__ in H. rewrite Eo in H.
        rewrite (set_check_raises _ _ _ _ e Ec) in H. injection H as <- <-.
        left. eauto.
    + unfold Config.setattr, Config.__setattr__ in H. rewrite Eo in H.
      injection H as <- <-. left. eauto.
Qed.

Lemma setattr_Inv (k : key) (v : value) (s : State) (r : result unit) (s' : State) :
  Inv cls s ->
  Config.setattr cls k v s = (r, s') ->
  Inv cls s' /\ heap s' = heap s /\ names s' = names s.
Proof.
  intros HI H.
  destruct (setattr_cases k v s r s' HI H)
    as [[e [_ ->]]|[_ [n [o [l [-> [Ho [Hc ->]]]]]]]]; [auto|].
  split; [|auto]. destruct HI as [Hb Hk]. split.
  - exact Hb.
  - unfold keyed. simpl. rewrite dict_keys_set_in; [exact Hk|].
    now apply (keyed_declared s n o).
Qed.

(** *** Bulk loads *)

Lemma load_cons (k : key) (v : value) (d : dict) (s : State) :
  Config.load_config_dict cls ((k, v) :: d) s =
  match Config.setattr cls k v s with
  | (Ok _, s1) => Config.load_config_dict cls d s1
  | (Err e, s1) => (Err e, s1)
  end.
Proof. reflexivity. Qed.

Lemma load_app (xs ys : dict) : forall s,
  Config.load_config_dict cls (xs ++ ys) s =
  match Config.load_config_dict cls xs s with
  | (Ok _, s1) => Config.load_config_dict cls ys s1
  | (Err e, s1) => (Err e, s1)
  end.
Proof.
  induction xs as [|[k v] xs IH]; intros s.
  - reflexivity.
  - simpl app. rewrite !load_cons.
    destruct (Config.setattr cls k v s) as [[[]|e] s1]; [apply IH|reflexivity].
Qed.

Lemma load_Inv (d : dict) : forall s r s',
  Inv cls s ->
  Config.load_config_dict cls d s = (r, s') ->
  Inv cls s' /\ heap s' = heap s /\ names s' = names s.
Proof.
  induction d as [|[k v] d IH]; intros s r s' HI H.
  - injection H as <- <-. auto.
  - rewrite load_cons in H.
    destruct (Config.setattr cls k v s) as [[[]|e] s1] eqn:E.
    + destruct (setattr_Inv k v s _ s1 HI E) as [HI1 [Hh Hn]].
      destruct (IH s1 r s' HI1 H) as [HI' [Hh' Hn']].
      split; [exact HI'|]. split; congruence.
    + injection H as <- <-. exact (setattr_Inv k v s _ s1 HI E).
Qed.

Lemma load_ok (d : dict) : forall s,
  Inv cls s ->
  Forall (entry_ok cls (heap s)) d ->
  exists l,
    Config.load_config_dict cls d s =
    (Ok tt, mkState (names s) (write_all d (idict s)) (heap s) l
                    (calls s ++ hooked cls d)).
Proof.
  induction d as [|[k v] d IH]; intros s HI Hall.
  - exists (logging s). unfold Config.load_config_dict, ret. simpl.
    rewrite app_nil_r. now destruct s.
  - inversion Hall as [|? ? [n [o [Hk [Ho Hc]]]] Hall']; subst.
    simpl in Hk, Hc. subst k. rewrite load_cons.
    destruct (setattr_accept n o v s HI Ho Hc) as [l1 E]. rewrite E.
    destruct (setattr_Inv _ _ _ _ _ HI E) as [HI1 _].
    destruct (IH _ HI1 Hall') as [l2 E2]. rewrite E2. exists l2.
    simpl. unfold hook_of. rewrite Ho, app_assoc. reflexivity.
Qed.

(** A load leaves alone the keys it does not name, and a successful load
    of distinct keys leaves each of them bound to the value loaded. *)
Lemma load_other_key (d : dict) : forall s r s' k,
  Inv cls s ->
  Config.load_config_dict cls d s = (r, s') ->
  ~ In k (dict_keys d) ->
  dict_get k (idict s') = dict_get k (idict s).
Proof.
  induction d as [|[k0 v0] d IH]; intros s r s' k HI H Hk.
  - now injection H as <- <-.
  - rewrite load_cons in H. simpl in Hk.
    destruct (Config.setattr cls k0 v0 s) as [r1 s1] eqn:E.
    assert (dict_get k (idict s1) = dict_get k (idict s)) as Hs1.
    { destruct (setattr_cases k0 v0 s r1 s1 HI E)
        as [[e [_ ->]]|[_ [n [o [l [-> [_ [_ ->]]]]]]]]; [reflexivity|].
      simpl. apply dict_get_set_other. tauto. }
    destruct r1 as [[]|e].
    + rewrite <- Hs1. apply (IH s1 r s'); [|exact H|tauto].
      exact (proj1 (setattr_Inv k0 v0 s _ s1 HI E)).
    + injection H as <- <-. exact Hs1.
Qed.

Lemma load_committed (d : dict) : forall s s' k v,
  Inv cls s ->
  Config.load_config_dict cls d s = (Ok tt, s') ->
  NoDup (dict_keys d) ->
  In (k, v) d ->
  dict_get k (idict s') = Some v /\
  exists n o, k = KStr n /\ assoc n (Config.options cls) = Some o.
Proof.
  induction d as [|[k0 v0] d IH]; intros s s' k v HI H Hnd Hin; [contradiction|].
  rewrite load_cons in H. simpl in Hnd. inversion Hnd as [|? ? Hk0 Hnd']; subst.
  destruct (Config.setattr cls k0 v0 s) as [[[]|e] s1] eqn:E; [|discriminate].
  pose proof (proj1 (setattr_Inv k0 v0 s _ s1 HI E)) as HI1.
  destruct Hin as [[= -> ->]|Hin].
  - rewrite (load_other_key d s1 _ s' k HI1 H Hk0).
    destruct (setattr_cases k v s _ s1 HI E)
      as [[e [He _]]|[_ [n [o [l [-> [Ho [_ ->]]]]]]]]; [discriminate|].
    simpl. rewrite dict_get_set_same. eauto.
  - exact (IH s1 s' k v HI1 H Hnd' Hin).
Qed.

(** Loading a dict that has the keys of the instance [__dict__] makes the
    instance [__dict__] equal to it. *)
Lemma restore_ok (snap : dict) (s : State) :
  Inv cls s ->
  dict_keys snap = dict_keys (idict s) ->
  Forall (entry_ok cls (heap s)) snap ->
  exists l,
    Config.load_config_dict cls snap s =
    (Ok tt, mkState (names s) snap (heap s) l (calls s ++ hooked cls snap)).
Proof.
  intros HI Hk Hall. destruct (load_ok snap s HI Hall) as [l E].
  exists l. rewrite E. rewrite write_all_same_keys; auto.
  rewrite Hk. apply keyed_nodup, HI.
Qed.

Lemma setattr_allowed (k : key) (v : value) (s : State) (r : result unit) (s' : State) :
  Inv cls s -> values_allowed cls s ->
  Config.setattr cls k v s = (r, s') ->
  values_allowed cls s'.
Proof.
  intros HI Ha H.
  destruct (setattr_cases k v s r s' HI H)
    as [[e [_ ->]]|[_ [n [o [l [-> [Ho [Hc ->]]]]]]]]; [auto|].
  intros n' o' v' Ho' Hg. simpl in *.
  destruct (String.eqb_spec n n') as [<-|Hne].
  - rewrite dict_get_set_same in Hg. congruence.
  - rewrite dict_get_set_other in Hg by congruence. eauto.
Qed.

Lemma load_allowed (d : dict) : forall s r s',
  Inv cls s -> values_allowed cls s ->
  Config.load_config_dict cls d s = (r, s') ->
  values_allowed cls s'.
Proof.
  induction d as [|[k v] d IH]; intros s r s' HI Ha H.
  - injection H as <- <-. auto.
  - rewrite load_cons in H.
    destruct (Config.setattr cls k v s) as [[[]|e] s1] eqn:E.
    + apply (IH s1 r s'); auto.
      * exact (proj1 (setattr_Inv k v s _ s1 HI E)).
      * exact (setattr_allowed k v s _ s1 HI Ha E).
    + injection H as <- <-. exact (setattr_allowed k v s _ s1 HI Ha E).
Qed.

Lemma allowed_entries (s : State) (h : heap_t) :
  Inv cls s -> values_allowed cls s -> h = heap s ->
  Forall (entry_ok cls h) (idict s).
Proof.
  intros [Hb Hk] Ha ->. apply Forall_forall. intros [k v] Hin.
  destruct (keyed_entry s k v Hk Hin) as [n [o [-> [Ho Hg]]]].
  exists n, o. simpl. eauto.
Qed.

End Registry.

(** ** Construction: [Config.__init__] *)

Lemma init_run (cls : class) (s : State) :
  Config.__init__ cls s =
  (Ok tt, mkState (bind_all (Config.options cls) (names s))
                  (default_all (Config.options cls) (idict s))
                  (heap s) (logging s) (calls s)).
Proof.
  unfold Config.__init__. generalize (Config.options cls) as l.
  intros l. revert s. induction l as [|[k o] l IH]; intros s.
  - now destruct s.
  - simpl. unfold bind at 1. unfold bind at 1.
    unfold Option.set_name, modify. rewrite IH. reflexivity.
Qed.

Lemma bind_all_lookup (l : list (string * Option)) :
  forall (ns : list (nat * key)) (id : nat),
    name_lookup id (bind_all l ns) =
    match last_key id l with
    | Some k => KStr k
    | None => name_lookup id ns
    end.
Proof.
  unfold bind_all. induction l as [|[k o] l IH]; intros ns id; simpl.
  - reflexivity.
  - rewrite IH. destruct (last_key id l); [reflexivity|].
    destruct (Nat.eqb_spec id (oid o)) as [->|Hne].
    + apply name_lookup_bind_same.
    + apply name_lookup_bind_other. congruence.
Qed.

Lemma last_key_none (id : nat) (l : list (string * Option)) :
  ~ In id (map (fun kv => oid (snd kv)) l) -> last_key id l = None.
Proof.
  induction l as [|[k o] l IH]; simpl; [reflexivity|].
  intros Hn. rewrite IH by tauto.
  destruct (Nat.eqb_spec id (oid o)); [|reflexivity]. subst. tauto.
Qed.

Lemma last_key_distinct (l : list (string * Option)) (k : string) (o : Option) :
  NoDup (map (fun kv => oid (snd kv)) l) -> In (k, o) l ->
  last_key (oid o) l = Some k.
Proof.
  induction l as [|[k0 o0] l IH]; simpl; [tauto|].
  intros Hnd Hin. inversion Hnd as [|? ? Hk Hd]; subst.
  destruct Hin as [[= -> ->]|Hin].
  - rewrite last_key_none by exact Hk. now rewrite Nat.eqb_refl.
  - now rewrite IH.
Qed.

Lemma default_all_fresh (l : list (string * Option)) : forall (pre : dict),
  NoDup (dict_keys pre ++ map KStr (map fst l)) ->
  default_all l pre =
  pre ++ map (fun kv => (KStr (fst kv), default (snd kv))) l.
Proof.
  unfold default_all. induction l as [|[k o] l IH]; intros pre Hnd; simpl.
  - now rewrite app_nil_r.
  - simpl in Hnd.
    replace (dict_set (KStr k) (default o) pre) with (pre ++ [(KStr k, default o)]).
    + rewrite IH.
      * now rewrite <- app_assoc.
      * unfold dict_keys in *. rewrite map_app. simpl.
        now rewrite <- app_assoc.
    + rewrite <- (app_nil_r pre) at 2. rewrite dict_set_app_notin; [reflexivity|].
      apply NoDup_remove_2 in Hnd. intros Hin. apply Hnd.
      apply in_or_app. now left.
Qed.

(** Instantiating a well-formed class with distinct options gives a
    registry that holds the defaults and satisfies the invariant. *)
Lemma new_run (cls : class) (s : State) :
  wf_class cls ->
  Config.new cls s =
  (Ok tt, mkState (bind_all (Config.options cls) (names s))
                  (Config.defaults cls) (heap s) (logging s) (calls s)).
Proof.
  intros Hwf. unfold Config.new, bind, modify. rewrite init_run. simpl.
  rewrite (default_all_fresh _ []); [reflexivity|].
  simpl. apply KStr_map_nodup, options_of_nodup, Hwf.
Qed.

Lemma new_Inv (cls : class) (s : State) :
  wf_class cls -> distinct_options cls ->
  Inv cls (snd (Config.new cls s)).
Proof.
  intros Hwf Hd. rewrite (new_run cls s Hwf). simpl. split.
  - intros k o Hin. simpl. rewrite bind_all_lookup.
    now rewrite (last_key_distinct _ k o Hd Hin).
  - unfold keyed, Config.defaults, dict_keys. simpl. rewrite map_map.
    reflexivity.
Qed.

(** ** The module's registry *)

Lemma PyphiConfig_wf : wf_class PyphiConfig.
Proof. apply wf_class_by_eval. vm_compute. reflexivity. Qed.

Lemma PyphiConfig_distinct : distinct_options PyphiConfig.
Proof. apply distinct_options_by_eval. vm_compute. reflexivity. Qed.

Lemma boot_Inv : Inv PyphiConfig boot.
Proof. apply new_Inv; [apply PyphiConfig_wf | apply PyphiConfig_distinct]. Qed.

Lemma getattr_declared (cls : class) (n : string) (o : Option) (s : State) :
  wf_class cls -> Inv cls s ->
  assoc n (Config.options cls) = Some o ->
  exists v, dict_get (KStr n) (idict s) = Some v /\
            Config.getattr cls n s = (Ok v, s).
Proof.
  intros Hwf [Hb Hk] Ho.
  destruct (dict_get_in_keys (KStr n) (idict s) (keyed_declared cls s n o Hk Ho))
    as [v Hv].
  exists v. split; [exact Hv|].
  rewrite (getattr_option cls n o s Hwf Ho).
  now rewrite (Hb n o (assoc_in _ _ _ Ho)), Hv.
Qed.

(** On the constructed [PyphiConfig], [configure_logging] reads its three
    settings and installs a configuration. *)
Lemma configure_logging_inert : inert PyphiConfig configure_logging.
Proof.
  intros s HI.
  destruct (getattr_declared PyphiConfig "LOG_FILE_LEVEL" PyphiConfig.LOG_FILE_LEVEL
              s PyphiConfig_wf HI eq_refl) as [v1 [_ E1]].
  destruct (getattr_declared PyphiConfig "LOG_FILE" PyphiConfig.LOG_FILE
              s PyphiConfig_wf HI eq_refl) as [v2 [_ E2]].
  destruct (getattr_declared PyphiConfig "LOG_STDOUT_LEVEL" PyphiConfig.LOG_STDOUT_LEVEL
              s PyphiConfig_wf HI eq_refl) as [v3 [_ E3]].
  unfold configure_logging, bind.
  rewrite E1; cbv beta iota. rewrite E2; cbv beta iota.
  rewrite E3; cbv beta iota. rewrite E1; cbv beta iota.
  rewrite E3; cbv beta iota.
  unfold gets, dictConfig, modify. eexists. reflexivity.
Qed.

Lemma PyphiConfig_inert : inert_class PyphiConfig.
Proof.
  intros k o f Hin Hf. simpl in Hin.
  repeat (destruct Hin as [Hin|Hin];
          [injection Hin as <- <-; simpl in Hf; try discriminate;
           injection Hf as <-; apply configure_logging_inert|]).
  contradiction.
Qed.

(** ** Defaults, traces of hook calls and the option table of [PyphiConfig] *)

Lemma defaults_get (cls : class) (n : string) (o : Option) :
  wf_class cls ->
  assoc n (Config.options cls) = Some o ->
  dict_get (KStr n) (Config.defaults cls) = Some (default o).
Proof.
  intros Hwf H. apply dict_get_of_in.
  - unfold Config.defaults, dict_keys. rewrite map_map. simpl.
    rewrite <- map_map. apply KStr_map_nodup, options_of_nodup, Hwf.
  - unfold Config.defaults. apply in_map_iff. exists (n, o).
    split; [reflexivity|]. now apply assoc_in.
Qed.

Lemma new_allowed (cls : class) (s0 : State) :
  wf_class cls -> defaults_allowed cls (heap s0) ->
  values_allowed cls (snd (Config.new cls s0)).
Proof.
  intros Hwf Hd n o v Ho Hg. rewrite (new_run cls s0 Hwf) in *. simpl in *.
  rewrite (defaults_get cls n o Hwf Ho) in Hg. injection Hg as <-.
  exact (Hd n o Ho).
Qed.

Lemma PyphiConfig_defaults_allowed :
  defaults_allowed PyphiConfig (heap module_state).
Proof.
  intros n o Ho. apply assoc_in in Ho. simpl in Ho.
  repeat (destruct Ho as [Ho|Ho]; [injection Ho as <- <-; reflexivity|]).
  contradiction.
Qed.

Lemma load_Inv_snd (cls : class) (d : dict) (s : State) :
  inert_class cls -> Inv cls s ->
  Inv cls (snd (Config.load_config_dict cls d s)).
Proof.
  intros Hin HI.
  exact (proj1 (load_Inv cls Hin d s _ _ HI (surjective_pairing _))).
Qed.

Lemma setattr_Inv_snd (cls : class) (k : key) (v : value) (s : State) :
  inert_class cls -> Inv cls s ->
  Inv cls (snd (Config.setattr cls k v s)).
Proof.
  intros Hin HI.
  exact (proj1 (setattr_Inv cls Hin k v s _ _ HI (surjective_pairing _))).
Qed.

Lemma boot_allowed : values_allowed PyphiConfig boot.
Proof.
  apply new_allowed; [apply PyphiConfig_wf | apply PyphiConfig_defaults_allowed].
Qed.

(** The invocations that one write enters in the history. *)
Lemma setattr_calls (cls : class) (k : key) (v : value) (s : State)
  (r : result unit) (s' : State) :
  Config.setattr cls k v s = (r, s') ->
  calls s' = calls s ++ hook_of cls k \/
  (calls s' = calls s /\ exists e, r = Err e).
Proof.
  intros H. destruct k as [|n]; simpl in H.
  - injection H as <- <-. right. eauto.
  - unfold Config.__setattr__ in H. unfold hook_of.
    destruct (assoc n (Config.options cls)) as [o|].
    + destruct (check o (heap s) v) as [[|]|e] eqn:Ec.
      * rewrite (set_rejected _ _ _ _ Ec) in H. injection H as <- <-.
        right. eauto.
      * rewrite (set_accepted _ _ _ _ Ec) in H. unfold hook_ids.
        destruct (on_change o) as [f|].
        -- unfold Option.call_on_change in H.
           destruct (f (Config.getattr cls) (committed o v s)) as [r2 s2].
           injection H as <- <-. left. reflexivity.
        -- injection H as <- <-. left. simpl. now rewrite app_nil_r.
      * rewrite (set_check_raises _ _ _ _ e Ec) in H. injection H as <- <-.
        right. eauto.
    + injection H as <- <-. right. eauto.
Qed.

(** A load calls the hooks of its entries in order, up to its end or to
    the write that fails. *)
Lemma load_calls (cls : class) (d : dict) : forall s r s',
  Config.load_config_dict cls d s = (r, s') ->
  exists done rest,
    hooked cls d = done ++ rest /\
    calls s' = calls s ++ done /\
    (r = Ok tt -> rest = []).
Proof.
  induction d as [|[k v] d IH]; intros s r s' H.
  - injection H as <- <-. exists [], []. simpl. now rewrite app_nil_r.
  - rewrite load_cons in H.
    destruct (Config.setattr cls k v s) as [[[]|e] s1] eqn:E.
    + destruct (setattr_calls cls k v s _ s1 E) as [Hc|[_ [e He]]];
        [|discriminate].
      destruct (IH s1 r s' H) as [done [rest [Hh [Hcalls Hr]]]].
      exists (hook_of cls k ++ done), rest. simpl. split; [|split].
      * rewrite Hh. now rewrite app_assoc.
      * rewrite Hcalls, Hc. now rewrite app_assoc.
      * exact Hr.
    + injection H as <- <-.
      destruct (setattr_calls cls k v s _ s1 E) as [Hc|[Hc _]].
      * exists (hook_of cls k), (hooked cls d). simpl.
        split; [reflexivity|]. split; [exact Hc|discriminate].
      * exists [], (hook_of cls k ++ hooked cls d). simpl.
        split; [reflexivity|]. split; [now rewrite app_nil_r|discriminate].
Qed.

Lemma load_free (cls : class) (d : dict) : forall s,
  Forall (fun kv => free cls (fst kv)) d ->
  exists s1, Config.load_config_dict cls d s = (Ok tt, s1) /\
             calls s1 = calls s.
Proof.
  induction d as [|[k v] d IH]; intros s Hall.
  - exists s. split; reflexivity.
  - inversion Hall as [|? ? [n [o [Hk [Ho [Hv Hf]]]]] Hall']; subst.
    simpl in Hk. subst k. rewrite load_cons.
    unfold Config.setattr, Config.__setattr__. rewrite Ho.
    assert (check o (heap s) v = Ok false) as Hc0
      by (unfold check; now rewrite Hv).
    rewrite (set_accepted o (Config.getattr cls) v s Hc0), Hf.
    destruct (IH (committed o v s) Hall') as [s1 [E Hc]].
    exists s1. split; [exact E|]. rewrite Hc. reflexivity.
Qed.

Lemma before_LOG_FILE_free (k : key) :
  In k before_LOG_FILE -> free PyphiConfig k.
Proof.
  intros Hin. vm_compute in Hin.
  repeat (destruct Hin as [<-|Hin];
          [eexists; eexists; split; [reflexivity|];
           split; [vm_compute; reflexivity|]; split; reflexivity|]).
  contradiction.
Qed.

(** Loading any dict that has the keys of the constructed [PyphiConfig]
    calls the hook of [LOG_FILE], in whatever state. *)
Lemma PyphiConfig_load_calls_logging (snap : dict) (s : State) :
  dict_keys snap = map (fun kv => KStr (fst kv)) (Config.options PyphiConfig) ->
  exists rest,
    calls (snd (Config.load_config_dict PyphiConfig snap s)) =
    calls s ++ oid PyphiConfig.LOG_FILE :: rest.
Proof.
  intros Hk.
  rewrite <- (firstn_skipn 16 (map _ (Config.options PyphiConfig))) in Hk.
  fold before_LOG_FILE in Hk.
  apply map_eq_app in Hk as [xs [tl [-> [Hxs Htl]]]].
  change (skipn 16 (map (fun kv => KStr (fst kv)) (Config.options PyphiConfig)))
    with (KStr "LOG_FILE" ::
          skipn 17 (map (fun kv => KStr (fst kv)) (Config.options PyphiConfig)))
    in Htl.
  apply map_eq_cons in Htl as [[k v] [ys [-> [Hk _]]]]. simpl in Hk. subst k.
  assert (Forall (fun kv => free PyphiConfig (fst kv)) xs) as Hfree.
  { apply Forall_forall. intros kv Hin. apply before_LOG_FILE_free.
    rewrite <- Hxs. now apply in_map. }
  destruct (load_free PyphiConfig xs s Hfree) as [s1 [E1 Hc1]].
  rewrite load_app, E1, load_cons.
  change (Config.setattr PyphiConfig (KStr "LOG_FILE") v s1)
    with (Option.__set__ PyphiConfig.LOG_FILE (Config.getattr PyphiConfig) v s1).
  rewrite (set_accepted PyphiConfig.LOG_FILE (Config.getattr PyphiConfig) v s1
             eq_refl).
  change (on_change PyphiConfig.LOG_FILE) with (Some configure_logging).
  unfold Option.call_on_change.
  destruct (configure_logging (Config.getattr PyphiConfig)
              (committed PyphiConfig.LOG_FILE v s1)) as [[[]|e] s2].
  - match goal with
    | |- context [Config.load_config_dict PyphiConfig ys ?st] =>
        destruct (load_calls PyphiConfig ys st _ _ (surjective_pairing _))
          as [done [rest [_ [Hc _]]]]
    end.
    exists done. rewrite Hc. simpl. rewrite Hc1, <- app_assoc. reflexivity.
  - exists []. simpl. now rewrite Hc1.
Qed.

(** * The claims of the specification *)

(** ** C1: when the override captures the state it restores *)

(** C1, the code at the failing input. The snapshot is taken by
    [_override.__init__], when the guard is constructed, and
    [_override.__enter__] takes none. A call of the decorated function
    therefore restores the state of the time of decoration: [PRECISION] is
    [7] just before the call and [6], its value when the decorator was
    applied, just after; a guard object entered after a write behaves
    alike. *)
Theorem override_restores_construction_state :
  (forall cls new_config s,
     override cls new_config s = (Ok (mk_override cls new_config (idict s)), s)) /\
  (forall g, _override.__enter__ g =
             Config.load_config_dict (config g) (new_conf g)) /\
  fst (decorate_then_write_then_call boot) = Ok (VInt 7, VInt 100, VInt 6) /\
  fst (construct_then_write_then_enter boot) = Ok (VInt 7, VInt 6).
Proof.
  split; [|split; [|split]].
  - reflexivity.
  - reflexivity.
  - vm_compute. reflexivity.
  - vm_compute. reflexivity.
Qed.

(** ** C2: the guarded body raises *)

(** C2, counterexample. The guard is constructed and entered on the state
    that construction of [InvalidDefault] produces, with the valid override
    [A = 1], and its body raises. On exit the restoring write of [A = 0] is
    rejected: the caller receives that [ValueError] in place of the body's
    exception, and [A] is left at [1]. *)
Lemma failed_restore_replaces_exception :
  fst (Config.load_config_dict InvalidDefault [(KStr "A", VInt 1)]
         (snd (Config.new InvalidDefault blank))) = Ok tt /\
  fst (with_override InvalidDefault [(KStr "A", VInt 1)]
         (raise (A := unit) (Exception_ "boom"))
         (snd (Config.new InvalidDefault blank))) =
    Err (ValueError (NotValidValue (VInt 0) (KStr "A"))) /\
  fst (Config.getattr InvalidDefault "A" (snd (Config.new InvalidDefault blank))) =
    Ok (VInt 0) /\
  fst (Config.getattr InvalidDefault "A"
         (snd (with_override InvalidDefault [(KStr "A", VInt 1)]
                 (raise (A := unit) (Exception_ "boom"))
                 (snd (Config.new InvalidDefault blank))))) = Ok (VInt 1).
Proof. repeat split. Qed.

(** C2, as amended. Let the hooks of the registry type be inert, and let a
    guard be constructed and at once entered on the constructed registry
    state [s0], as [with config.override(...)] does, with overrides that
    load successfully. If the body raises [e], leaving the registry
    constructed, and every value of [s0] is one that its descriptor accepts
    when it is written back, then the statement raises that same [e], in a
    state whose mapping is that of [s0]. *)
Theorem override_restores_when_body_raises
  (A : Type) (cls : class) (new_config : dict) (body : M A) (e : exn)
  (s0 s1 s2 : State) :
  wf_class cls -> inert_class cls ->
  Inv cls s0 ->
  Config.load_config_dict cls new_config s0 = (Ok tt, s1) ->
  body s1 = (Err e, s2) ->
  Inv cls s2 ->
  Forall (entry_ok cls (heap s2)) (idict s0) ->
  exists s3,
    with_override cls new_config body s0 = (Err e, s3) /\
    idict s3 = idict s0 /\ names s3 = names s2 /\ heap s3 = heap s2.
Proof.
  intros Hwf Hin HI0 Henter Hbody HI2 Hall.
  assert (dict_keys (idict s0) = dict_keys (idict s2)) as Hk
    by (rewrite (proj2 HI0), (proj2 HI2); reflexivity).
  destruct (restore_ok cls Hwf Hin (idict s0) s2 HI2 Hk Hall) as [l E].
  eexists. split.
  - unfold with_override, override, _override.__init__, Config.snapshot.
    unfold bind at 1. unfold bind at 1. unfold gets, ret, with_.
    unfold _override.__enter__, _override.__exit__. simpl.
    rewrite Henter, Hbody. unfold bind. rewrite E. reflexivity.
  - simpl. auto.
Qed.

Lemma override_restores_when_body_raises_witness :
  exists s3,
    with_override PyphiConfig [(KStr "PRECISION", VInt 100)] write_then_raise boot =
      (Err (Exception_ "boom"), s3) /\
    idict s3 = idict boot /\
    names s3 =
      names (snd (Config.setattr PyphiConfig (KStr "MEASURE") (VStr "KLD")
                    (snd (Config.load_config_dict PyphiConfig
                            [(KStr "PRECISION", VInt 100)] boot)))) /\
    heap s3 =
      heap (snd (Config.setattr PyphiConfig (KStr "MEASURE") (VStr "KLD")
                   (snd (Config.load_config_dict PyphiConfig
                           [(KStr "PRECISION", VInt 100)] boot)))).
Proof.
  apply (override_restores_when_body_raises unit PyphiConfig
           [(KStr "PRECISION", VInt 100)] write_then_raise (Exception_ "boom")
           boot
           (snd (Config.load_config_dict PyphiConfig
                   [(KStr "PRECISION", VInt 100)] boot))).
  - apply PyphiConfig_wf.
  - apply PyphiConfig_inert.
  - apply boot_Inv.
  - vm_compute. reflexivity.
  - vm_compute. reflexivity.
  - apply setattr_Inv_snd; [apply PyphiConfig_inert|].
    apply load_Inv_snd; [apply PyphiConfig_inert | apply boot_Inv].
  - apply (allowed_entries PyphiConfig PyphiConfig_wf boot _ boot_Inv boot_allowed).
    vm_compute. reflexivity.
Defined.

(** ** C3: the hook runs after the commit *)

(** C3. For a declared setting whose descriptor has an [on_change] hook, a
    successful [setattr] has first committed the value and then called the
    hook on the registry itself: the hook is run in the state [committed],
    where reading the setting already yields the new value. *)
Theorem hook_runs_after_commit
  (cls : class) (name : string) (o : Option) (f : registry -> M unit)
  (v : value) (s s' : State) :
  wf_class cls ->
  assoc name (Config.options cls) = Some o ->
  on_change o = Some f ->
  Config.setattr cls (KStr name) v s = (Ok tt, s') ->
  exists s2,
    idict (committed o v s) =
      dict_set (name_lookup (oid o) (names s)) v (idict s) /\
    Config.getattr cls name (committed o v s) = (Ok v, committed o v s) /\
    f (Config.getattr cls) (committed o v s) = (Ok tt, s2) /\
    s' = set_calls (calls s ++ [oid o]) s2.
Proof.
  intros Hwf Ho Hf H.
  unfold Config.setattr, Config.__setattr__ in H. rewrite Ho in H.
  destruct (check o (heap s) v) as [[|]|e] eqn:Ec.
  - rewrite (set_rejected _ _ _ _ Ec) in H. discriminate.
  - rewrite (set_accepted _ _ _ _ Ec), Hf in H.
    unfold Option.call_on_change in H.
    destruct (f (Config.getattr cls) (committed o v s)) as [r s2] eqn:Ef.
    injection H as -> <-. exists s2. repeat split.
    rewrite (getattr_option cls name o _ Hwf Ho). simpl.
    now rewrite dict_get_set_same.
  - rewrite (set_check_raises _ _ _ _ e Ec) in H. discriminate.
Qed.

Lemma hook_runs_after_commit_witness :
  exists s2,
    idict (committed PyphiConfig.LOG_FILE (VStr "run.log") boot) =
      dict_set (name_lookup (oid PyphiConfig.LOG_FILE) (names boot))
               (VStr "run.log") (idict boot) /\
    Config.getattr PyphiConfig "LOG_FILE"
      (committed PyphiConfig.LOG_FILE (VStr "run.log") boot) =
      (Ok (VStr "run.log"), committed PyphiConfig.LOG_FILE (VStr "run.log") boot) /\
    configure_logging (Config.getattr PyphiConfig)
      (committed PyphiConfig.LOG_FILE (VStr "run.log") boot) = (Ok tt, s2) /\
    snd (Config.setattr PyphiConfig (KStr "LOG_FILE") (VStr "run.log") boot) =
      set_calls (calls boot ++ [oid PyphiConfig.LOG_FILE]) s2.
Proof.
  apply (hook_runs_after_commit PyphiConfig "LOG_FILE" PyphiConfig.LOG_FILE
           configure_logging (VStr "run.log") boot).
  - apply PyphiConfig_wf.
  - vm_compute. reflexivity.
  - reflexivity.
  - vm_compute. reflexivity.
Defined.

(** ** C4: allowed values *)

(** C4, counterexample. The descriptor has an allowed-value list, the empty
    one, of which [5] is not a member; the write of [5] is accepted all the
    same and replaces the prior value [0]. *)
Lemma empty_allowed_values_accept_any :
  values EmptyValues_A = Some [] /\
  py_in [] (VInt 5) [] = Ok false /\
  Config.getattr EmptyValues "A" (snd (Config.new EmptyValues blank)) =
    (Ok (VInt 0), snd (Config.new EmptyValues blank)) /\
  fst (Config.setattr EmptyValues (KStr "A") (VInt 5)
         (snd (Config.new EmptyValues blank))) = Ok tt /\
  fst (Config.getattr EmptyValues "A"
         (snd (Config.setattr EmptyValues (KStr "A") (VInt 5)
                (snd (Config.new EmptyValues blank))))) = Ok (VInt 5).
Proof. repeat split. Qed.

(** C4, as amended. For a declared setting whose allowed-value list is
    present and not empty: a write of a value that is not a member raises
    the invalid-value [ValueError] and leaves the whole state as it was
    (the mapping untouched, no hook called); a write of a member, on a
    constructed registry and when the setting's hook, if it has one, is
    inert, succeeds, and the setting then reads as that value. *)
Theorem allowed_values_enforced
  (cls : class) (name : string) (o : Option) (x : value) (vs : list value)
  (v a : value) (s : State) :
  wf_class cls ->
  assoc name (Config.options cls) = Some o ->
  values o = Some (x :: vs) ->
  py_in (heap s) v (x :: vs) = Ok false ->
  py_in (heap s) a (x :: vs) = Ok true ->
  Config.setattr cls (KStr name) v s =
    (Err (ValueError (NotValidValue v (name_lookup (oid o) (names s)))), s) /\
  (Inv cls s -> (forall f, on_change o = Some f -> inert cls f) ->
   exists s', Config.setattr cls (KStr name) a s = (Ok tt, s') /\
              Config.getattr cls name s' = (Ok a, s')).
Proof.
  intros Hwf Ho Hvals Hv Ha. split.
  - unfold Config.setattr, Config.__setattr__. rewrite Ho.
    apply set_rejected. unfold check. now rewrite Hvals, Hv.
  - intros HI Hin.
    assert (check o (heap s) a = Ok false) as Hc
      by (unfold check; now rewrite Hvals, Ha).
    destruct (setattr_accept_hook cls name o a s Hin HI Ho Hc) as [l E].
    eexists. split; [exact E|].
    rewrite (getattr_option cls name o _ Hwf Ho). simpl.
    rewrite (proj1 HI name o (assoc_in _ _ _ Ho)).
    now rewrite dict_get_set_same.
Qed.

Lemma allowed_values_enforced_witness :
  Config.setattr PyphiConfig (KStr "REPR_VERBOSITY") (VInt 3) boot =
    (Err (ValueError (NotValidValue (VInt 3) (KStr "REPR_VERBOSITY"))), boot) /\
  exists s',
    Config.setattr PyphiConfig (KStr "REPR_VERBOSITY") (VInt 1) boot = (Ok tt, s') /\
    Config.getattr PyphiConfig "REPR_VERBOSITY" s' = (Ok (VInt 1), s').
Proof.
  destruct (allowed_values_enforced PyphiConfig "REPR_VERBOSITY"
              PyphiConfig.REPR_VERBOSITY (VInt 0) [VInt 1; VInt 2]
              (VInt 3) (VInt 1) boot) as [Hr Ha].
  - apply PyphiConfig_wf.
  - vm_compute. reflexivity.
  - reflexivity.
  - vm_compute. reflexivity.
  - vm_compute. reflexivity.
  - split.
    + exact Hr.
    + apply Ha; [apply boot_Inv | discriminate].
Defined.

(** ** C5: undeclared names *)

(** C5, counterexample. [snapshot] is declared by no descriptor of
    [PyphiConfig], and reading it from the registry does not fail: it is the
    bound method. *)
Lemma method_name_is_readable :
  assoc "snapshot" (Config.options PyphiConfig) = None /\
  Config.getattr PyphiConfig "snapshot" boot = (Ok (VAttr "snapshot"), boot).
Proof. split; vm_compute; reflexivity. Qed.

(** C5, as amended. For a name that no descriptor declares: every write
    fails with the unknown-option [ValueError] and leaves the state as it
    was; a read fails with [AttributeError] when the registry's type does
    not resolve the name either, and otherwise yields that attribute (a
    method, for one). A declared name is writable in every state: its write
    is handed to its descriptor. On a constructed registry with inert hooks,
    every operation leaves the registry constructed, its mapping keeping
    exactly the declared names as keys: a write, a bulk load, a snapshot,
    and the entry and the exit of an override guard. *)
Theorem undeclared_names_rejected (cls : class) (name : string) :
  assoc name (Config.options cls) = None ->
  (forall v s, Config.setattr cls (KStr name) v s =
               (Err (ValueError (NotValidOption name)), s)) /\
  (forall s, keyed cls s ->
     Config.getattr cls name s =
     match type_lookup cls name with
     | None => (Err (AttributeError name), s)
     | Some _ => (Ok (VAttr name), s)
     end) /\
  (forall n o v s, assoc n (Config.options cls) = Some o ->
     Config.setattr cls (KStr n) v s =
     Option.__set__ o (Config.getattr cls) v s) /\
  (inert_class cls ->
   forall s, Inv cls s ->
     (forall k v, Inv cls (snd (Config.setattr cls k v s))) /\
     (forall d, Inv cls (snd (Config.load_config_dict cls d s))) /\
     (Config.snapshot cls s = (Ok (idict s), s)) /\
     (forall g exc, config g = cls ->
        Inv cls (snd (_override.__enter__ g s)) /\
        Inv cls (snd (_override.__exit__ g exc s)))).
Proof.
  intros Hn. split; [|split; [|split]].
  - intros v s. unfold Config.setattr, Config.__setattr__. now rewrite Hn.
  - intros s Hk. unfold Config.getattr.
    pose proof (type_lookup_not_option cls name Hn) as Hno.
    destruct (type_lookup cls name) as [[o|]|] eqn:E.
    + now destruct (Hno o).
    + unfold bind, gets. now rewrite (keyed_undeclared cls s name Hk Hn).
    + unfold bind, gets. now rewrite (keyed_undeclared cls s name Hk Hn).
  - intros n o v s Ho. unfold Config.setattr, Config.__setattr__.
    now rewrite Ho.
  - intros Hin s HI. split; [|split; [|split]].
    + intros k v. now apply setattr_Inv_snd.
    + intros d. now apply load_Inv_snd.
    + reflexivity.
    + intros g exc <-. split.
      * unfold _override.__enter__. now apply load_Inv_snd.
      * unfold _override.__exit__, bind.
        pose proof (load_Inv_snd (config g) (initial_conf g) s Hin HI) as H.
        destruct (Config.load_config_dict (config g) (initial_conf g) s)
          as [[[]|e] s']; exact H.
Qed.

Lemma undeclared_names_rejected_witness :
  (forall v s, Config.setattr PyphiConfig (KStr "FOO") v s =
               (Err (ValueError (NotValidOption "FOO")), s)) /\
  (forall s, keyed PyphiConfig s ->
     Config.getattr PyphiConfig "FOO" s = (Err (AttributeError "FOO"), s)) /\
  (forall n o v s, assoc n (Config.options PyphiConfig) = Some o ->
     Config.setattr PyphiConfig (KStr n) v s =
     Option.__set__ o (Config.getattr PyphiConfig) v s) /\
  (forall d, Inv PyphiConfig (snd (Config.load_config_dict PyphiConfig d boot))) /\
  (forall exc, Inv PyphiConfig (snd (_override.__exit__ precision_guard exc inside_block))).
Proof.
  destruct (undeclared_names_rejected PyphiConfig "FOO") as [H1 [H2 [H3 H4]]].
  - vm_compute. reflexivity.
  - split; [exact H1|]. split; [exact H2|]. split; [exact H3|]. split.
    + exact (proj1 (proj2 (H4 PyphiConfig_inert boot boot_Inv))).
    + intros exc.
      assert (Inv PyphiConfig inside_block) as HI.
      { exact (proj1 (proj2 (proj2 (proj2 (H4 PyphiConfig_inert boot boot_Inv)))
                       precision_guard None eq_refl)). }
      exact (proj2 (proj2 (proj2 (proj2 (H4 PyphiConfig_inert inside_block HI)))
                      precision_guard exc eq_refl)).
Defined.

(** ** C6: snapshot and restore *)

(** C6, counterexample. In the state [S] that construction alone produces,
    [A] is [0]. A snapshot is taken, the valid write [A = 1] follows, and
    loading the snapshot raises the invalid-value [ValueError] on [A]: the
    default was stored without validation and is validated now. [A] stays
    [1]. *)
Lemma restore_rejects_unvalidated_default :
  Config.snapshot InvalidDefault (snd (Config.new InvalidDefault blank)) =
    (Ok [(KStr "A", VInt 0)], snd (Config.new InvalidDefault blank)) /\
  fst (Config.setattr InvalidDefault (KStr "A") (VInt 1)
         (snd (Config.new InvalidDefault blank))) = Ok tt /\
  fst (Config.load_config_dict InvalidDefault [(KStr "A", VInt 0)]
         (snd (Config.setattr InvalidDefault (KStr "A") (VInt 1)
                 (snd (Config.new InvalidDefault blank))))) =
    Err (ValueError (NotValidValue (VInt 0) (KStr "A"))) /\
  fst (Config.getattr InvalidDefault "A"
         (snd (Config.load_config_dict InvalidDefault [(KStr "A", VInt 0)]
                 (snd (Config.setattr InvalidDefault (KStr "A") (VInt 1)
                         (snd (Config.new InvalidDefault blank))))))) =
    Ok (VInt 1).
Proof. repeat split. Qed.

(** C6, as amended. Take a registry type whose hooks are inert and whose
    defaults are each accepted by their own descriptor. From the registry as
    constructed, let a sequence of successful writes produce the state [S];
    take a snapshot of [S]; let any further sequence of successful writes
    follow. Then loading the snapshot succeeds, and afterwards the mapping
    is that of [S]: every declared setting reads as it did in [S]. *)
Theorem snapshot_restore_roundtrip
  (cls : class) (s0 : State) (ws1 ws2 : dict) (sS s1 : State) :
  wf_class cls -> distinct_options cls -> inert_class cls ->
  defaults_allowed cls (heap s0) ->
  Config.load_config_dict cls ws1 (snd (Config.new cls s0)) = (Ok tt, sS) ->
  Config.load_config_dict cls ws2 sS = (Ok tt, s1) ->
  exists snap s2,
    Config.snapshot cls sS = (Ok snap, sS) /\
    Config.load_config_dict cls snap s1 = (Ok tt, s2) /\
    idict s2 = idict sS /\
    forall n o, assoc n (Config.options cls) = Some o ->
      exists v, Config.getattr cls n sS = (Ok v, sS) /\
                Config.getattr cls n s2 = (Ok v, s2).
Proof.
  intros Hwf Hdist Hin Hdef H1 H2.
  pose proof (new_Inv cls s0 Hwf Hdist) as HI0.
  pose proof (new_allowed cls s0 Hwf Hdef) as Ha0.
  destruct (load_Inv cls Hin ws1 _ _ _ HI0 H1) as [HIS [HhS HnS]].
  pose proof (load_allowed cls Hin ws1 _ _ _ HI0 Ha0 H1) as HaS.
  destruct (load_Inv cls Hin ws2 _ _ _ HIS H2) as [HI1 [Hh1 Hn1]].
  assert (dict_keys (idict sS) = dict_keys (idict s1)) as Hk
    by (rewrite (proj2 HIS), (proj2 HI1); reflexivity).
  destruct (restore_ok cls Hwf Hin (idict sS) s1 HI1 Hk
              (allowed_entries cls Hwf sS (heap s1) HIS HaS Hh1)) as [l E].
  exists (idict sS). eexists. split; [reflexivity|]. split; [exact E|].
  split; [reflexivity|].
  intros n o Ho.
  destruct (getattr_declared cls n o sS Hwf HIS Ho) as [v [Hv Hg]].
  exists v. split; [exact Hg|].
  rewrite (getattr_option cls n o _ Hwf Ho). simpl.
  rewrite Hn1, (proj1 HIS n o (assoc_in _ _ _ Ho)), Hv. reflexivity.
Qed.

Lemma snapshot_restore_roundtrip_witness :
  exists snap s2,
    Config.snapshot PyphiConfig
      (snd (Config.load_config_dict PyphiConfig [(KStr "PRECISION", VInt 5)] boot)) =
      (Ok snap,
       snd (Config.load_config_dict PyphiConfig [(KStr "PRECISION", VInt 5)] boot)) /\
    Config.load_config_dict PyphiConfig snap
      (snd (Config.load_config_dict PyphiConfig
              [(KStr "PRECISION", VInt 9); (KStr "LOG_FILE", VStr "run.log")]
              (snd (Config.load_config_dict PyphiConfig
                      [(KStr "PRECISION", VInt 5)] boot)))) = (Ok tt, s2) /\
    idict s2 =
      idict (snd (Config.load_config_dict PyphiConfig
                    [(KStr "PRECISION", VInt 5)] boot)) /\
    forall n o, assoc n (Config.options PyphiConfig) = Some o ->
      exists v,
        Config.getattr PyphiConfig n
          (snd (Config.load_config_dict PyphiConfig
                  [(KStr "PRECISION", VInt 5)] boot)) =
          (Ok v, snd (Config.load_config_dict PyphiConfig
                        [(KStr "PRECISION", VInt 5)] boot)) /\
        Config.getattr PyphiConfig n s2 = (Ok v, s2).
Proof.
  apply (snapshot_restore_roundtrip PyphiConfig module_state
           [(KStr "PRECISION", VInt 5)]
           [(KStr "PRECISION", VInt 9); (KStr "LOG_FILE", VStr "run.log")]).
  - apply PyphiConfig_wf.
  - apply PyphiConfig_distinct.
  - apply PyphiConfig_inert.
  - apply PyphiConfig_defaults_allowed.
  - vm_compute. reflexivity.
  - vm_compute. reflexivity.
Defined.

(** ** C7: what a snapshot shares with the registry *)

(** C7, counterexample. After the snapshot is taken, a modification in
    place of the dict that [REDIS_CONFIG] holds changes the value that the
    snapshot holds under [REDIS_CONFIG]: its port was [6379] when the
    snapshot was taken and is [1234] afterwards. *)
Lemma snapshot_shares_mutable_values :
  fst (snapshot_then_mutate boot) = Ok (idict boot) /\
  held (heap boot) (idict boot) (KStr "REDIS_CONFIG") =
    Some (TDict [(KStr "host", TStr "localhost"); (KStr "port", TInt 6379)]) /\
  held (heap (snd (snapshot_then_mutate boot))) (idict boot) (KStr "REDIS_CONFIG") =
    Some (TDict [(KStr "host", TStr "localhost"); (KStr "port", TInt 1234)]).
Proof. repeat split; vm_compute; reflexivity. Qed.

(** C7, as amended. A snapshot is a shallow copy: a mapping of its own that
    binds the current keys to the current values, references included, and
    taking it changes nothing. On a constructed registry with inert hooks,
    no write through [setattr] or [load_config_dict] made afterwards,
    accepted or not, changes the content of any value that the snapshot
    holds. A value that is a reference is shared with the registry: as long
    as the registry still binds the setting to it, the snapshot and the
    registry hold the same content under that setting, whatever has been
    modified in place. *)
Theorem snapshot_is_shallow_copy (cls : class) (s : State) :
  Config.snapshot cls s = (Ok (idict s), s) /\
  (inert_class cls -> Inv cls s ->
   forall d r s', Config.load_config_dict cls d s = (r, s') ->
   forall k, held (heap s') (idict s) k = held (heap s) (idict s) k) /\
  (forall s' k, dict_get k (idict s') = dict_get k (idict s) ->
                held (heap s') (idict s) k = held (heap s') (idict s') k).
Proof.
  split; [reflexivity|]. split.
  - intros Hin HI d r s' H k.
    destruct (load_Inv cls Hin d s r s' HI H) as [_ [Hh _]].
    now rewrite Hh.
  - intros s' k Hk. unfold held. now rewrite Hk.
Qed.

Lemma snapshot_is_shallow_copy_witness :
  Config.snapshot PyphiConfig boot = (Ok (idict boot), boot) /\
  (forall k,
     held (heap (snd (Config.load_config_dict PyphiConfig
                        [(KStr "PRECISION", VInt 3); (KStr "REPR_VERBOSITY", VInt 9)]
                        boot)))
          (idict boot) k =
     held (heap boot) (idict boot) k) /\
  held (heap (snd (snapshot_then_mutate boot))) (idict boot) (KStr "REDIS_CONFIG") =
  held (heap (snd (snapshot_then_mutate boot)))
       (idict (snd (snapshot_then_mutate boot))) (KStr "REDIS_CONFIG").
Proof.
  destruct (snapshot_is_shallow_copy PyphiConfig boot) as [H1 [H2 H3]].
  split; [exact H1|]. split.
  - intros k.
    apply (H2 PyphiConfig_inert boot_Inv
             [(KStr "PRECISION", VInt 3); (KStr "REPR_VERBOSITY", VInt 9)]
             (fst (Config.load_config_dict PyphiConfig
                     [(KStr "PRECISION", VInt 3); (KStr "REPR_VERBOSITY", VInt 9)]
                     boot))).
    apply surjective_pairing.
  - apply H3. vm_compute. reflexivity.
Defined.

(** ** C8: a bulk load stops at its first failing write *)

(** C8. [load_config_dict] writes the entries in the order given, each with
    [setattr]. When the entries [xs] are written successfully and the write
    of the next entry raises [e], the load raises [e] in the state that this
    write left, whatever entries [ys] follow: they are not written, and
    nothing that [xs] wrote is undone. When that write fails on the name or
    on the value, it leaves the state that the writes of [xs] produced. On a
    constructed registry with inert hooks, where a write can fail in no
    other way, every setting that [xs] names reads, after the failure, as
    the value that [xs] gave it. *)
Theorem load_stops_at_first_failure
  (cls : class) (xs ys : dict) (k : key) (v : value) (s s1 s2 : State) (e : exn) :
  Config.load_config_dict cls xs s = (Ok tt, s1) ->
  Config.setattr cls k v s1 = (Err e, s2) ->
  Config.load_config_dict cls (xs ++ (k, v) :: ys) s = (Err e, s2) /\
  (forall n, k = KStr n ->
     match assoc n (Config.options cls) with
     | None => e = ValueError (NotValidOption n) /\ s2 = s1
     | Some o =>
         check o (heap s1) v = Ok true ->
         e = ValueError (NotValidValue v (name_lookup (oid o) (names s1))) /\
         s2 = s1
     end) /\
  (forall k0 v0 d s0,
     Config.load_config_dict cls ((k0, v0) :: d) s0 =
     (Config.setattr cls k0 v0 ;; Config.load_config_dict cls d) s0) /\
  (forall d1 d2 s0,
     Config.load_config_dict cls (d1 ++ d2) s0 =
     (Config.load_config_dict cls d1 ;; Config.load_config_dict cls d2) s0) /\
  (wf_class cls -> inert_class cls -> Inv cls s -> NoDup (dict_keys xs) ->
   s2 = s1 /\
   forall k' v', In (k', v') xs ->
     exists n, k' = KStr n /\ Config.getattr cls n s2 = (Ok v', s2)).
Proof.
  intros Hxs Hk. split; [|split; [|split; [|split]]].
  - rewrite load_app, Hxs, load_cons, Hk. reflexivity.
  - intros n ->. unfold Config.setattr, Config.__setattr__ in Hk.
    destruct (assoc n (Config.options cls)) as [o|].
    + intros Hc. rewrite (set_rejected _ _ _ _ Hc) in Hk.
      injection Hk as <- <-. auto.
    + injection Hk as <- <-. auto.
  - reflexivity.
  - intros d1 d2 s0. rewrite load_app. unfold bind.
    destruct (Config.load_config_dict cls d1 s0) as [[[]|e0] s3]; reflexivity.
  - intros Hwf Hin HI Hnd.
    destruct (load_Inv cls Hin xs s _ s1 HI Hxs) as [HI1 _].
    assert (s2 = s1) as ->.
    { destruct (setattr_cases cls Hin k v s1 _ s2 HI1 Hk)
        as [[e0 [_ ->]]|[He _]]; [reflexivity|discriminate]. }
    split; [reflexivity|]. intros k' v' Hin'.
    destruct (load_committed cls Hin xs s s1 k' v' HI Hxs Hnd Hin')
      as [Hg [n [o [-> Ho]]]].
    exists n. split; [reflexivity|].
    rewrite (getattr_option cls n o s1 Hwf Ho).
    now rewrite (proj1 HI1 n o (assoc_in _ _ _ Ho)), Hg.
Qed.

Lemma load_stops_at_first_failure_witness :
  Config.load_config_dict PyphiConfig
    ([(KStr "PRECISION", VInt 3)] ++
     (KStr "REPR_VERBOSITY", VInt 9) :: [(KStr "MEASURE", VStr "KLD")]) boot =
  (Err (ValueError (NotValidValue (VInt 9) (KStr "REPR_VERBOSITY"))),
   snd (Config.setattr PyphiConfig (KStr "PRECISION") (VInt 3) boot)) /\
  exists n,
    KStr "PRECISION" = KStr n /\
    Config.getattr PyphiConfig n
      (snd (Config.setattr PyphiConfig (KStr "PRECISION") (VInt 3) boot)) =
    (Ok (VInt 3), snd (Config.setattr PyphiConfig (KStr "PRECISION") (VInt 3) boot)).
Proof.
  destruct (load_stops_at_first_failure PyphiConfig
           [(KStr "PRECISION", VInt 3)] [(KStr "MEASURE", VStr "KLD")]
           (KStr "REPR_VERBOSITY") (VInt 9) boot
           (snd (Config.setattr PyphiConfig (KStr "PRECISION") (VInt 3) boot))
           (snd (Config.setattr PyphiConfig (KStr "PRECISION") (VInt 3) boot))
           (ValueError (NotValidValue (VInt 9) (KStr "REPR_VERBOSITY"))))
    as [H1 [_ [_ [_ H5]]]].
  - vm_compute. reflexivity.
  - vm_compute. reflexivity.
  - split; [exact H1|].
    apply (proj2 (H5 PyphiConfig_wf PyphiConfig_inert boot_Inv
                    ltac:(repeat constructor; simpl; tauto))).
    now left.
Defined.

(** ** C9: binding a descriptor's name *)

(** C9, counterexample. Binding an [Option] that is already bound raises
    nothing. To the same name: [PRECISION] is bound in the module's
    registry, and running [Config.__init__] on it again returns normally
    with [PRECISION] still so named. To a different name: the assignment
    [name = "B"] after [name = "A"] returns normally and [B] is the name
    from then on, which is what constructing [TwoNames] does to its
    shared descriptor. *)
Lemma rebinding_is_silent :
  name_lookup (oid PyphiConfig.PRECISION) (names boot) = KStr "PRECISION" /\
  fst (Config.__init__ PyphiConfig boot) = Ok tt /\
  name_lookup (oid PyphiConfig.PRECISION)
    (names (snd (Config.__init__ PyphiConfig boot))) = KStr "PRECISION" /\
  fst (Option.name Shared (snd (Option.set_name Shared (KStr "A") blank))) =
    Ok (KStr "A") /\
  fst (Option.set_name Shared (KStr "B")
         (snd (Option.set_name Shared (KStr "A") blank))) = Ok tt /\
  fst (Option.name Shared
         (snd (Option.set_name Shared (KStr "B")
                 (snd (Option.set_name Shared (KStr "A") blank))))) =
    Ok (KStr "B") /\
  fst (Config.new TwoNames blank) = Ok tt /\
  fst (Option.name Shared (snd (Config.new TwoNames blank))) = Ok (KStr "B").
Proof. repeat split. Qed.

(** C9, as amended. Binding a descriptor's name is a plain assignment.
    [Option.__init__] leaves the name unset; [Config.__init__] assigns it
    for every declared option each time it runs: it never fails, whatever
    names were bound before, and afterwards every [Option] object carries
    the name under which the class lists it last (an object that the class
    does not list keeps the name it had). An assignment of a name always
    succeeds and is what is read back, whether or not a name was bound
    before. *)
Theorem name_binding_reassigns (cls : class) (s : State) :
  (exists s',
     Config.__init__ cls s = (Ok tt, s') /\
     forall id,
       name_lookup id (names s') =
       match last_key id (Config.options cls) with
       | Some k => KStr k
       | None => name_lookup id (names s)
       end) /\
  (forall (o : Option) (k : key),
     exists s1, Option.set_name o k s = (Ok tt, s1) /\
                Option.name o s1 = (Ok k, s1)) /\
  (forall id d vs f descr,
     exists o s1, Option.__init__ id d vs f descr s = (Ok o, s1) /\
                  Option.name o s1 = (Ok KNone, s1)).
Proof.
  split; [|split].
  - eexists. split; [apply init_run|]. intros id. simpl.
    apply bind_all_lookup.
  - intros o k. eexists. split; [reflexivity|].
    unfold Option.name, gets. simpl. now rewrite name_lookup_bind_same.
  - intros id d vs f descr. eexists. eexists. split; [reflexivity|].
    unfold Option.name, gets. simpl. now rewrite name_lookup_bind_same.
Qed.

(** ** C10: the hooks that an exit runs *)

(** C10, counterexample. Both settings of [TwoHooks] bear a hook and are
    in the snapshot of the guard that [with TwoHooks().override(): pass]
    constructs. The body returns; the exit writes [A] back, its hook
    raises, and the exit ends there: the hook of [B] is not invoked. *)
Lemma failed_restore_skips_later_hooks :
  override TwoHooks [] (snd (Config.new TwoHooks blank)) =
    (Ok TwoHooks_guard, snd (Config.new TwoHooks blank)) /\
  hooked TwoHooks (initial_conf TwoHooks_guard) = [0; 1] /\
  calls (snd (Config.new TwoHooks blank)) = [] /\
  fst (with_override TwoHooks [] (ret tt) (snd (Config.new TwoHooks blank))) =
    Err (Exception_ "hook failed") /\
  calls (snd (with_override TwoHooks [] (ret tt)
                (snd (Config.new TwoHooks blank)))) = [0] /\
  calls (snd (_override.__exit__ TwoHooks_guard None
                (snd (_override.__enter__ TwoHooks_guard
                        (snd (Config.new TwoHooks blank)))))) = [0].
Proof. repeat split. Qed.

(** C10, as amended. Every exit of a guard, whatever exception is or is
    not in flight, loads the whole snapshot through the normal write path
    and nothing else. The hooks of the hook-bearing settings of the
    snapshot, overridden or not and whatever their current values, are
    called in the order of the snapshot, up to the end or to the first
    restoring write that fails; they are all called when the exit returns.
    For a guard constructed over the constructed [PyphiConfig] registry,
    every exit calls [configure_logging], through [LOG_FILE]. *)
Theorem exit_reruns_hooks (g : _override) (exc : option exn) (s : State) :
  _override.__exit__ g exc s =
    (Config.load_config_dict (config g) (initial_conf g) ;; ret false) s /\
  (exists done rest,
     hooked (config g) (initial_conf g) = done ++ rest /\
     calls (snd (_override.__exit__ g exc s)) = calls s ++ done /\
     (forall b, fst (_override.__exit__ g exc s) = Ok b -> rest = [])) /\
  (forall new_config s0,
     Inv PyphiConfig s0 ->
     fst (override PyphiConfig new_config s0) = Ok g ->
     exists rest,
       calls (snd (_override.__exit__ g exc s)) =
       calls s ++ oid PyphiConfig.LOG_FILE :: rest).
Proof.
  split; [reflexivity|]. split.
  - destruct (Config.load_config_dict (config g) (initial_conf g) s)
      as [r s'] eqn:E.
    destruct (load_calls (config g) (initial_conf g) s r s' E)
      as [done [rest [Hh [Hc Hr]]]].
    exists done, rest. split; [exact Hh|].
    unfold _override.__exit__, bind. rewrite E.
    destruct r as [[]|e]; simpl; split; auto; discriminate.
  - intros new_config s0 [_ Hk] Hg. injection Hg as <-.
    destruct (PyphiConfig_load_calls_logging (idict s0) s Hk) as [rest Hr].
    exists rest. unfold _override.__exit__, bind. cbn [config initial_conf].
    destruct (Config.load_config_dict PyphiConfig (idict s0) s) as [[[]|e] s'];
      exact Hr.
Qed.

Lemma exit_reruns_hooks_witness :
  calls (snd (_override.__exit__ precision_guard None inside_block)) =
    calls inside_block ++
    [oid PyphiConfig.LOG_FILE; oid PyphiConfig.LOG_FILE_LEVEL;
     oid PyphiConfig.LOG_STDOUT_LEVEL] /\
  exists rest,
    calls (snd (_override.__exit__ precision_guard None inside_block)) =
    calls inside_block ++ oid PyphiConfig.LOG_FILE :: rest.
Proof.
  destruct (exit_reruns_hooks precision_guard None inside_block)
    as [_ [[done [rest [Hh [Hc Hr]]]] H3]].
  split.
  - rewrite Hc. f_equal.
    rewrite (Hr false) in Hh by (vm_compute; reflexivity).
    rewrite app_nil_r in Hh. rewrite <- Hh. vm_compute. reflexivity.
  - apply (H3 [(KStr "PRECISION", VInt 100)] boot boot_Inv). reflexivity.
Defined.

(** * Further properties of the module *)

(** ** Runs of the override guard *)

Lemma load_allowed_snd (cls : class) (d : dict) (s : State) :
  inert_class cls -> Inv cls s -> values_allowed cls s ->
  values_allowed cls (snd (Config.load_config_dict cls d s)).
Proof.
  intros Hin HI Ha.
  exact (load_allowed cls Hin d s _ _ HI Ha (surjective_pairing _)).
Qed.

(** A guard whose snapshot has the keys of the registry and holds values
    that pass validation: the body's outcome is the statement's, and the
    mapping afterwards is the snapshot. *)
Lemma guard_run {A} (g : _override) (body : M A) (s0 s1 s2 : State)
  (r : result A) :
  wf_class (config g) -> inert_class (config g) ->
  Config.load_config_dict (config g) (new_conf g) s0 = (Ok tt, s1) ->
  body s1 = (r, s2) ->
  Inv (config g) s2 ->
  dict_keys (initial_conf g) = dict_keys (idict s2) ->
  Forall (entry_ok (config g) (heap s2)) (initial_conf g) ->
  exists l,
    with_ (_override.__enter__ g) (_override.__exit__ g) body s0 =
    (completed r,
     mkState (names s2) (initial_conf g) (heap s2) l
             (calls s2 ++ hooked (config g) (initial_conf g))).
Proof.
  intros Hwf Hin He Hb HI Hk Hall.
  destruct (restore_ok (config g) Hwf Hin (initial_conf g) s2 HI Hk Hall)
    as [l E].
  exists l. unfold with_, _override.__enter__, _override.__exit__.
  rewrite He, Hb. destruct r; unfold bind; rewrite E; reflexivity.
Qed.

Lemma with_override_guard {A} (cls : class) (new_config : dict) (body : M A)
  (s0 : State) :
  with_override cls new_config body s0 =
  with_ (_override.__enter__ (mk_override cls new_config (idict s0)))
        (_override.__exit__ (mk_override cls new_config (idict s0))) body s0.
Proof. reflexivity. Qed.

Lemma with_override_run {A} (cls : class) (new_config : dict) (body : M A)
  (s0 s1 s2 : State) (r : result A) :
  wf_class cls -> inert_class cls -> Inv cls s0 ->
  Config.load_config_dict cls new_config s0 = (Ok tt, s1) ->
  body s1 = (r, s2) ->
  Inv cls s2 ->
  Forall (entry_ok cls (heap s2)) (idict s0) ->
  exists l,
    with_override cls new_config body s0 =
    (completed r,
     mkState (names s2) (idict s0) (heap s2) l
             (calls s2 ++ hooked cls (idict s0))).
Proof.
  intros Hwf Hin HI0 He Hb HI2 Hall. rewrite with_override_guard.
  apply (guard_run (mk_override cls new_config (idict s0)) body s0 s1 s2 r);
    auto.
  simpl. rewrite (proj2 HI0), (proj2 HI2). reflexivity.
Qed.

(** X1. A block that returns: on a constructed registry with inert hooks,
    when the overrides load, the body returns [a] leaving the registry
    constructed, and the values of the state of entry pass validation on
    the way back, [with config.override(...)] returns what the body
    returned and leaves the mapping as it was on entry. *)
Theorem override_restores_on_return
  (A : Type) (cls : class) (new_config : dict) (body : M A) (a : A)
  (s0 s1 s2 : State) :
  wf_class cls -> inert_class cls ->
  Inv cls s0 ->
  Config.load_config_dict cls new_config s0 = (Ok tt, s1) ->
  body s1 = (Ok a, s2) ->
  Inv cls s2 ->
  Forall (entry_ok cls (heap s2)) (idict s0) ->
  exists s3,
    with_override cls new_config body s0 = (Ok (Some a), s3) /\
    idict s3 = idict s0 /\ names s3 = names s2 /\ heap s3 = heap s2.
Proof.
  intros Hwf Hin HI0 He Hb HI2 Hall.
  destruct (with_override_run cls new_config body s0 s1 s2 (Ok a)
              Hwf Hin HI0 He Hb HI2 Hall) as [l E].
  eexists. split; [exact E|]. simpl. auto.
Qed.

Lemma override_restores_on_return_witness :
  exists s3,
    with_override PyphiConfig [(KStr "PRECISION", VInt 100)]
      (read_precision tt) boot = (Ok (Some (VInt 100)), s3) /\
    idict s3 = idict boot /\
    names s3 =
      names (snd (Config.load_config_dict PyphiConfig
                    [(KStr "PRECISION", VInt 100)] boot)) /\
    heap s3 =
      heap (snd (Config.load_config_dict PyphiConfig
                   [(KStr "PRECISION", VInt 100)] boot)).
Proof.
  apply (override_restores_on_return value PyphiConfig
           [(KStr "PRECISION", VInt 100)] (read_precision tt) (VInt 100) boot
           (snd (Config.load_config_dict PyphiConfig
                   [(KStr "PRECISION", VInt 100)] boot))).
  - apply PyphiConfig_wf.
  - apply PyphiConfig_inert.
  - apply boot_Inv.
  - vm_compute. reflexivity.
  - vm_compute. reflexivity.
  - apply load_Inv_snd; [apply PyphiConfig_inert | apply boot_Inv].
  - apply (allowed_entries PyphiConfig PyphiConfig_wf boot _ boot_Inv boot_allowed).
    vm_compute. reflexivity.
Defined.



(** X3. An override that cannot be applied: when the write of one of the
    overrides raises, the statement raises that exception from
    [__enter__]; the body does not run and [__exit__] is not called, so
    the state is the one the failed load left. On a constructed registry
    with inert hooks the overrides listed before the failing one stay in
    force. *)
Theorem failed_entry_is_not_undone
  (A : Type) (cls : class) (xs ys : dict) (k : key) (v : value)
  (s0 s1 s2 : State) (e : exn) :
  Config.load_config_dict cls xs s0 = (Ok tt, s1) ->
  Config.setattr cls k v s1 = (Err e, s2) ->
  (forall body : M A,
     with_override cls (xs ++ (k, v) :: ys) body s0 = (Err e, s2)) /\
  (inert_class cls -> Inv cls s0 -> NoDup (dict_keys xs) ->
   s2 = s1 /\
   forall k' v', In (k', v') xs -> dict_get k' (idict s2) = Some v').
Proof.
  intros Hx Hk. split.
  - intros body. rewrite with_override_guard.
    unfold with_, _override.__enter__. cbn [config new_conf].
    rewrite load_app, Hx, load_cons, Hk. reflexivity.
  - intros Hin HI Hnd.
    destruct (load_Inv cls Hin xs s0 _ _ HI Hx) as (HI1 & _ & _).
    assert (E : s2 = s1).
    { destruct (setattr_cases cls Hin k v s1 _ _ HI1 Hk)
        as [[e' [_ ->]]|[Hr _]]; [reflexivity | discriminate]. }
    split; [exact E|]. subst s2. intros k' v' Hi.
    exact (proj1 (load_committed cls Hin xs s0 s1 k' v' HI Hx Hnd Hi)).
Qed.

Lemma failed_entry_is_not_undone_witness :
  (forall body : M unit,
     with_override PyphiConfig
       ([(KStr "PRECISION", VInt 3)] ++
        (KStr "REPR_VERBOSITY", VInt 9) :: [(KStr "MEASURE", VStr "KLD")])
       body boot =
     (Err (ValueError (NotValidValue (VInt 9) (KStr "REPR_VERBOSITY"))),
      snd (Config.setattr PyphiConfig (KStr "PRECISION") (VInt 3) boot))) /\
  dict_get (KStr "PRECISION")
    (idict (snd (Config.setattr PyphiConfig (KStr "PRECISION") (VInt 3) boot))) =
  Some (VInt 3).
Proof.
  destruct (failed_entry_is_not_undone unit PyphiConfig
              [(KStr "PRECISION", VInt 3)] [(KStr "MEASURE", VStr "KLD")]
              (KStr "REPR_VERBOSITY") (VInt 9) boot
              (snd (Config.setattr PyphiConfig (KStr "PRECISION") (VInt 3) boot))
              (snd (Config.setattr PyphiConfig (KStr "PRECISION") (VInt 3) boot))
              (ValueError (NotValidValue (VInt 9) (KStr "REPR_VERBOSITY"))))
    as [H1 H2].
  - vm_compute. reflexivity.
  - vm_compute. reflexivity.
  - split; [exact H1|].
    destruct (H2 PyphiConfig_inert boot_Inv) as [_ H3].
    + apply (distinctb_sound key_eqb);
        [intros x y ->; apply key_eqb_refl | vm_compute; reflexivity].
    + apply H3. left. reflexivity.
Defined.

Lemma exit_returns_false (g : _override) (exc : option exn) (s s' : State)
  (b : bool) :
  _override.__exit__ g exc s = (Ok b, s') -> b = false.
Proof.
  unfold _override.__exit__, bind, ret. intros H.
  destruct (Config.load_config_dict (config g) (initial_conf g) s)
    as [[[]|e] s1]; [injection H as <- _; reflexivity | discriminate].
Qed.

(** X4. The guard never swallows an exception: [__exit__] returns [False]
    whenever it returns, so a statement [with g: body] that completes
    normally is one whose [__enter__], body and [__exit__] all completed
    normally, and its value is the body's. *)
Theorem guard_never_suppresses
  (A : Type) (g : _override) (body : M A) (s s' : State) (r : option A) :
  with_ (_override.__enter__ g) (_override.__exit__ g) body s = (Ok r, s') ->
  exists a s1 s2,
    r = Some a /\
    _override.__enter__ g s = (Ok tt, s1) /\
    body s1 = (Ok a, s2) /\
    _override.__exit__ g None s2 = (Ok false, s').
Proof.
  unfold with_. intros H.
  destruct (_override.__enter__ g s) as [[[]|e] s1] eqn:En; [|discriminate].
  destruct (body s1) as [[a|e] s2] eqn:Eb.
  - destruct (_override.__exit__ g None s2) as [[b|e'] s3] eqn:Ex;
      [|discriminate].
    injection H as <- <-.
    pose proof (exit_returns_false g None s2 s3 b Ex) as ->.
    exists a, s1, s2.
    split; [|split; [|split]]; try reflexivity; assumption.
  - destruct (_override.__exit__ g (Some e) s2) as [[b|e'] s3] eqn:Ex;
      [|discriminate].
    pose proof (exit_returns_false g (Some e) s2 s3 b Ex) as ->.
    discriminate.
Qed.

Lemma guard_never_suppresses_witness :
  exists a s1 s2,
    Some (VInt 100) = Some a /\
    _override.__enter__ precision_guard boot = (Ok tt, s1) /\
    read_precision tt s1 = (Ok a, s2) /\
    _override.__exit__ precision_guard None s2 =
      (Ok false,
       snd (with_ (_override.__enter__ precision_guard)
                  (_override.__exit__ precision_guard)
                  (read_precision tt) boot)).
Proof.
  apply (guard_never_suppresses value precision_guard (read_precision tt) boot).
  vm_compute. reflexivity.
Defined.

(** X5. A decorated function: for a guard [g] whose snapshot has the keys
    of the registry and holds values that pass validation, with inert
    hooks and overrides that load, a call of [g(func)] has the outcome of
    [func] run under the overrides, return value or exception alike, and
    leaves as mapping the snapshot that [g] took when it was constructed,
    after calling the hooks of the snapshot's settings. *)
Theorem decorated_call_passes_outcome
  (A : Type) (g : _override) (func : A -> M value) (args : A)
  (s0 s1 s2 : State) (r : result value) :
  wf_class (config g) -> inert_class (config g) ->
  Config.load_config_dict (config g) (new_conf g) s0 = (Ok tt, s1) ->
  func args s1 = (r, s2) ->
  Inv (config g) s2 ->
  dict_keys (initial_conf g) = dict_keys (idict s2) ->
  Forall (entry_ok (config g) (heap s2)) (initial_conf g) ->
  exists s3,
    _override.__call__ g func args s0 = (r, s3) /\
    idict s3 = initial_conf g /\
    calls s3 = calls s2 ++ hooked (config g) (initial_conf g).
Proof.
  intros Hwf Hin He Hb HI Hk Hall.
  destruct (guard_run g (func args) s0 s1 s2 r Hwf Hin He Hb HI Hk Hall)
    as [l E].
  eexists. unfold _override.__call__, bind. rewrite E.
  destruct r; simpl; (split; [reflexivity|split; reflexivity]).
Qed.

Lemma decorated_call_passes_outcome_witness :
  exists s3,
    _override.__call__ precision_guard read_precision tt
      (snd (Config.setattr PyphiConfig (KStr "PRECISION") (VInt 7) boot)) =
      (Ok (VInt 100), s3) /\
    idict s3 = initial_conf precision_guard /\
    calls s3 =
      calls (snd (Config.load_config_dict PyphiConfig
                    [(KStr "PRECISION", VInt 100)]
                    (snd (Config.setattr PyphiConfig (KStr "PRECISION")
                            (VInt 7) boot)))) ++
      hooked (config precision_guard) (initial_conf precision_guard).
Proof.
  apply (decorated_call_passes_outcome unit precision_guard read_precision tt
           (snd (Config.setattr PyphiConfig (KStr "PRECISION") (VInt 7) boot))
           (snd (Config.load_config_dict PyphiConfig
                   [(KStr "PRECISION", VInt 100)]
                   (snd (Config.setattr PyphiConfig (KStr "PRECISION")
                           (VInt 7) boot))))).
  - apply PyphiConfig_wf.
  - apply PyphiConfig_inert.
  - vm_compute. reflexivity.
  - vm_compute. reflexivity.
  - apply load_Inv_snd; [apply PyphiConfig_inert|].
    apply setattr_Inv_snd; [apply PyphiConfig_inert | apply boot_Inv].
  - vm_compute. reflexivity.
  - apply (allowed_entries PyphiConfig PyphiConfig_wf boot _ boot_Inv
             boot_allowed).
    vm_compute. reflexivity.
Defined.

Lemma Inv_restored (cls : class) (s1 s3 : State) (l : list log_config)
  (c : list nat) :
  Inv cls s1 -> Inv cls s3 ->
  Inv cls (mkState (names s3) (idict s1) (heap s3) l c).
Proof.
  intros [_ Hk] [Hb _]. split; [exact Hb | exact Hk].
Qed.

(** X6. Nested blocks unwind in order: on a constructed registry whose
    values pass validation, with inert hooks, when both sets of overrides
    load and the body leaves the registry constructed and the heap as it
    was, the inner block ends with the mapping the outer block had made,
    and the outer block with the mapping of entry, whether the body
    returns or raises; the body's outcome is that of both statements. *)
Theorem nested_overrides_unwind
  (A : Type) (cls : class) (outer inner : dict) (body : M A)
  (s0 s1 s2 s3 : State) (r : result A) :
  wf_class cls -> inert_class cls ->
  Inv cls s0 -> values_allowed cls s0 ->
  Config.load_config_dict cls outer s0 = (Ok tt, s1) ->
  Config.load_config_dict cls inner s1 = (Ok tt, s2) ->
  body s2 = (r, s3) ->
  Inv cls s3 -> heap s3 = heap s0 ->
  exists s4 s5,
    with_override cls inner body s1 = (completed r, s4) /\
    idict s4 = idict s1 /\
    with_override cls outer (with_override cls inner body) s0 =
      (completed (completed r), s5) /\
    idict s5 = idict s0.
Proof.
  intros Hwf Hin HI0 Ha0 H1 H2 Hb HI3 Hh.
  destruct (load_Inv cls Hin outer s0 _ _ HI0 H1) as (HI1 & Hh1 & _).
  assert (Ha1 : values_allowed cls s1)
    by exact (load_allowed cls Hin outer s0 _ _ HI0 Ha0 H1).
  assert (Hall1 : Forall (entry_ok cls (heap s3)) (idict s1))
    by (apply (allowed_entries cls Hwf s1 (heap s3) HI1 Ha1); congruence).
  destruct (with_override_run cls inner body s1 s2 s3 r
              Hwf Hin HI1 H2 Hb HI3 Hall1) as [l4 E4].
  assert (Hall0 : Forall (entry_ok cls (heap s3)) (idict s0))
    by (apply (allowed_entries cls Hwf s0 (heap s3) HI0 Ha0); congruence).
  destruct (with_override_run cls outer (with_override cls inner body)
              s0 s1 _ (completed r) Hwf Hin HI0 H1 E4
              (Inv_restored cls s1 s3 l4 _ HI1 HI3) Hall0) as [l5 E5].
  eexists. eexists. split; [exact E4|]. split; [reflexivity|].
  split; [exact E5 | reflexivity].
Qed.

Lemma nested_overrides_unwind_witness :
  exists s4 s5,
    with_override PyphiConfig [(KStr "PRECISION", VInt 100)]
      (read_precision tt)
      (snd (Config.load_config_dict PyphiConfig
              [(KStr "PRECISION", VInt 50)] boot)) =
      (completed (Ok (VInt 100)), s4) /\
    idict s4 =
      idict (snd (Config.load_config_dict PyphiConfig
                    [(KStr "PRECISION", VInt 50)] boot)) /\
    with_override PyphiConfig [(KStr "PRECISION", VInt 50)]
      (with_override PyphiConfig [(KStr "PRECISION", VInt 100)]
         (read_precision tt)) boot =
      (completed (completed (Ok (VInt 100))), s5) /\
    idict s5 = idict boot.
Proof.
  apply (nested_overrides_unwind value PyphiConfig
           [(KStr "PRECISION", VInt 50)] [(KStr "PRECISION", VInt 100)]
           (read_precision tt) boot
           (snd (Config.load_config_dict PyphiConfig
                   [(KStr "PRECISION", VInt 50)] boot))
           (snd (Config.load_config_dict PyphiConfig
                   [(KStr "PRECISION", VInt 100)]
                   (snd (Config.load_config_dict PyphiConfig
                           [(KStr "PRECISION", VInt 50)] boot))))
           (snd (Config.load_config_dict PyphiConfig
                   [(KStr "PRECISION", VInt 100)]
                   (snd (Config.load_config_dict PyphiConfig
                           [(KStr "PRECISION", VInt 50)] boot))))).
  - apply PyphiConfig_wf.
  - apply PyphiConfig_inert.
  - apply boot_Inv.
  - apply boot_allowed.
  - vm_compute. reflexivity.
  - vm_compute. reflexivity.
  - vm_compute. reflexivity.
  - apply load_Inv_snd; [apply PyphiConfig_inert|].
    apply load_Inv_snd; [apply PyphiConfig_inert | apply boot_Inv].
  - vm_compute. reflexivity.
Defined.

(** ** Writes *)




(** X8. A failing hook does not undo the write: when the value passes
    validation and the setting's hook, run after the value is stored,
    raises without having written to the registry, the assignment raises
    that exception, the hook is entered in the history, and the setting
    reads as the new value. *)
Theorem failed_hook_keeps_value
  (cls : class) (n : string) (o : Option) (f : registry -> M unit)
  (v : value) (s s2 : State) (e : exn) :
  wf_class cls ->
  assoc n (Config.options cls) = Some o ->
  on_change o = Some f ->
  check o (heap s) v = Ok false ->
  f (Config.getattr cls) (committed o v s) = (Err e, s2) ->
  idict s2 = idict (committed o v s) ->
  names s2 = names s ->
  exists s',
    Config.setattr cls (KStr n) v s = (Err e, s') /\
    Config.getattr cls n s' = (Ok v, s') /\
    calls s' = calls s ++ [oid o].
Proof.
  intros Hwf Ho Hf Hc Hr Hd Hn.
  exists (set_calls (calls s ++ [oid o]) s2). split; [|split].
  - unfold Config.setattr, Config.__setattr__. rewrite Ho.
    rewrite (set_accepted o (Config.getattr cls) v s Hc), Hf.
    unfold Option.call_on_change. rewrite Hr. reflexivity.
  - rewrite (getattr_option cls n o _ Hwf Ho). cbn [names idict set_calls].
    rewrite Hd, Hn. cbn [idict committed set_idict].
    rewrite dict_get_set_same. reflexivity.
  - reflexivity.
Qed.

Lemma failed_hook_keeps_value_witness :
  exists s',
    Config.setattr TwoHooks (KStr "A") (VInt 5) (snd (Config.new TwoHooks blank)) =
      (Err (Exception_ "hook failed"), s') /\
    Config.getattr TwoHooks "A" s' = (Ok (VInt 5), s') /\
    calls s' =
      calls (snd (Config.new TwoHooks blank)) ++
      [oid (mkOption 0 (VInt 0) None (Some failing_hook) None)].
Proof.
  apply (failed_hook_keeps_value TwoHooks "A"
           (mkOption 0 (VInt 0) None (Some failing_hook) None) failing_hook
           (VInt 5) (snd (Config.new TwoHooks blank))
           (committed (mkOption 0 (VInt 0) None (Some failing_hook) None)
                      (VInt 5) (snd (Config.new TwoHooks blank)))).
  - apply wf_class_by_eval. vm_compute. reflexivity.
  - vm_compute. reflexivity.
  - reflexivity.
  - vm_compute. reflexivity.
  - vm_compute. reflexivity.
  - reflexivity.
  - reflexivity.
Defined.

Lemma type_lookup_option_in (cls : class) (n : string) (o : Option) :
  type_lookup cls n = Some (AOption o) -> In (n, o) (Config.options cls).
Proof.
  unfold type_lookup. intros H. apply options_of_in.
  destruct (assoc n (cls_dict cls)) as [a|] eqn:E.
  - injection H as ->. exact (assoc_in _ _ _ E).
  - destruct (mem n (bases cls)); discriminate.
Qed.

(** What an attribute read returns depends on the name bindings and on
    the entry of that name in the mapping only. *)
Lemma getattr_same (cls : class) (n : string) (s s' : State) :
  bound cls s ->
  names s' = names s ->
  dict_get (KStr n) (idict s') = dict_get (KStr n) (idict s) ->
  fst (Config.getattr cls n s') = fst (Config.getattr cls n s).
Proof.
  intros Hb Hn Hd. unfold Config.getattr.
  destruct (type_lookup cls n) as [[o|]|] eqn:E.
  - apply type_lookup_option_in in E.
    unfold Option.__get__, Option.name, bind, gets. rewrite Hn.
    rewrite (Hb n o E), Hd.
    destruct (dict_get (KStr n) (idict s)); reflexivity.
  - unfold bind, gets. rewrite Hd.
    destruct (dict_get (KStr n) (idict s)); reflexivity.
  - unfold bind, gets. rewrite Hd.
    destruct (dict_get (KStr n) (idict s)); reflexivity.
Qed.

(** X9. A write touches one setting: on a constructed registry with inert
    hooks, after [setattr(config, k, v)], whether it succeeded or raised,
    every attribute of another name reads as before, and the heap and the
    name bindings are as before. *)
Theorem write_leaves_other_settings
  (cls : class) (k : key) (v : value) (s s' : State) (r : result unit) :
  inert_class cls -> Inv cls s ->
  Config.setattr cls k v s = (r, s') ->
  (forall n, k <> KStr n ->
     fst (Config.getattr cls n s') = fst (Config.getattr cls n s)) /\
  heap s' = heap s /\ names s' = names s.
Proof.
  intros Hin HI H.
  destruct (setattr_Inv cls Hin k v s r s' HI H) as (_ & Hh & Hn).
  split; [|auto]. intros n Hne.
  apply (getattr_same cls n s s' (proj1 HI) Hn).
  destruct (setattr_cases cls Hin k v s r s' HI H)
    as [[e [_ ->]]|[_ [n0 [o [l [-> [_ [_ ->]]]]]]]]; [reflexivity|].
  cbn [idict]. apply dict_get_set_other. exact Hne.
Qed.

Lemma write_leaves_other_settings_witness :
  (forall n, KStr "PRECISION" <> KStr n ->
     fst (Config.getattr PyphiConfig n
            (snd (Config.setattr PyphiConfig (KStr "PRECISION") (VInt 3) boot))) =
     fst (Config.getattr PyphiConfig n boot)) /\
  heap (snd (Config.setattr PyphiConfig (KStr "PRECISION") (VInt 3) boot)) =
    heap boot /\
  names (snd (Config.setattr PyphiConfig (KStr "PRECISION") (VInt 3) boot)) =
    names boot.
Proof.
  apply (write_leaves_other_settings PyphiConfig (KStr "PRECISION") (VInt 3)
           boot _ (fst (Config.setattr PyphiConfig (KStr "PRECISION") (VInt 3) boot))).
  - apply PyphiConfig_inert.
  - apply boot_Inv.
  - vm_compute. reflexivity.
Defined.

(** ** Construction and defaults *)

(** X10. Construction: for a registry type whose class dict has no repeated
    name and whose descriptors are distinct objects, [cls()] succeeds, the
    mapping of the new instance is [defaults()], every declared setting
    reads as the default of its descriptor, whether or not that default is
    among the descriptor's allowed values, and no hook is called and no
    logging configuration installed. *)
Theorem construction_gives_defaults (cls : class) (s : State) :
  wf_class cls -> distinct_options cls ->
  exists s',
    Config.new cls s = (Ok tt, s') /\
    idict s' = Config.defaults cls /\
    calls s' = calls s /\ logging s' = logging s /\ heap s' = heap s /\
    forall n o, assoc n (Config.options cls) = Some o ->
      Config.getattr cls n s' = (Ok (default o), s').
Proof.
  intros Hwf Hd. pose proof (new_Inv cls s Hwf Hd) as HI.
  rewrite (new_run cls s Hwf) in HI |- *. cbn [snd] in HI.
  eexists. split; [reflexivity|]. cbn [idict calls logging heap].
  split; [reflexivity|]. split; [reflexivity|]. split; [reflexivity|].
  split; [reflexivity|]. intros n o Ho.
  destruct (getattr_declared cls n o _ Hwf HI Ho) as (v & Hg & Hr).
  cbn [idict] in Hg. rewrite (defaults_get cls n o Hwf Ho) in Hg.
  injection Hg as <-. exact Hr.
Qed.

Lemma construction_gives_defaults_witness :
  exists s',
    Config.new InvalidDefault blank = (Ok tt, s') /\
    idict s' = Config.defaults InvalidDefault /\
    calls s' = calls blank /\ logging s' = logging blank /\
    heap s' = heap blank /\
    forall n o, assoc n (Config.options InvalidDefault) = Some o ->
      Config.getattr InvalidDefault n s' = (Ok (default o), s').
Proof.
  apply (construction_gives_defaults InvalidDefault blank).
  - apply wf_class_by_eval. vm_compute. reflexivity.
  - apply distinct_options_by_eval. vm_compute. reflexivity.
Defined.

Lemma defaults_entries (cls : class) (h : heap_t) :
  wf_class cls -> defaults_allowed cls h ->
  Forall (entry_ok cls h) (Config.defaults cls).
Proof.
  intros Hwf Hd. unfold Config.defaults. apply Forall_forall.
  intros kv Hin. apply in_map_iff in Hin as [[n o] [<- Hin]].
  exists n, o. split; [reflexivity|].
  pose proof (declared_of_in cls Hwf n o Hin) as Ho.
  split; [exact Ho | exact (Hd n o Ho)].
Qed.

(** X11. Back to the defaults: on a constructed registry with inert hooks
    whose declared defaults pass their own validation,
    [config.load_config_dict(config.defaults())] succeeds, makes the
    mapping [defaults()] again, so that every declared setting reads as
    its default, and calls the hook of every hook-bearing setting, in
    declaration order. *)
Theorem load_defaults_resets (cls : class) (s : State) :
  wf_class cls -> inert_class cls -> Inv cls s ->
  defaults_allowed cls (heap s) ->
  exists s',
    Config.load_config_dict cls (Config.defaults cls) s = (Ok tt, s') /\
    idict s' = Config.defaults cls /\
    calls s' = calls s ++ hooked cls (Config.defaults cls) /\
    forall n o, assoc n (Config.options cls) = Some o ->
      Config.getattr cls n s' = (Ok (default o), s').
Proof.
  intros Hwf Hin HI Hd.
  assert (Hk : dict_keys (Config.defaults cls) = dict_keys (idict s)).
  { rewrite (proj2 HI). unfold Config.defaults, dict_keys.
    rewrite map_map. reflexivity. }
  destruct (restore_ok cls Hwf Hin (Config.defaults cls) s HI Hk
              (defaults_entries cls (heap s) Hwf Hd)) as [l E].
  eexists. split; [exact E|]. cbn [idict calls].
  split; [reflexivity|]. split; [reflexivity|]. intros n o Ho.
  pose proof (load_Inv cls Hin _ _ _ _ HI E) as (HI' & _ & _).
  destruct (getattr_declared cls n o _ Hwf HI' Ho) as (v & Hg & Hr).
  cbn [idict] in Hg. rewrite (defaults_get cls n o Hwf Ho) in Hg.
  injection Hg as <-. exact Hr.
Qed.

Lemma load_defaults_resets_witness :
  exists s',
    Config.load_config_dict PyphiConfig (Config.defaults PyphiConfig)
      (snd (Config.setattr PyphiConfig (KStr "PRECISION") (VInt 3) boot)) =
      (Ok tt, s') /\
    idict s' = Config.defaults PyphiConfig /\
    calls s' =
      calls (snd (Config.setattr PyphiConfig (KStr "PRECISION") (VInt 3) boot)) ++
      hooked PyphiConfig (Config.defaults PyphiConfig) /\
    forall n o, assoc n (Config.options PyphiConfig) = Some o ->
      Config.getattr PyphiConfig n s' = (Ok (default o), s').
Proof.
  apply (load_defaults_resets PyphiConfig
           (snd (Config.setattr PyphiConfig (KStr "PRECISION") (VInt 3) boot))).
  - apply PyphiConfig_wf.
  - apply PyphiConfig_inert.
  - apply setattr_Inv_snd; [apply PyphiConfig_inert | apply boot_Inv].
  - exact PyphiConfig_defaults_allowed.
Defined.

(** X12. A valid bulk load: on a constructed registry with inert hooks, a
    load whose every entry names a declared setting and gives a value that
    passes that setting's validation succeeds; it calls the hooks of the
    entries' settings in the order of the entries, the keys it does not
    name keep their values, and when no key is repeated every entry reads
    back as given. *)
Theorem valid_load_succeeds (cls : class) (d : dict) (s : State) :
  inert_class cls -> Inv cls s ->
  Forall (entry_ok cls (heap s)) d ->
  exists s',
    Config.load_config_dict cls d s = (Ok tt, s') /\
    calls s' = calls s ++ hooked cls d /\
    (forall k, ~ In k (dict_keys d) ->
       dict_get k (idict s') = dict_get k (idict s)) /\
    (NoDup (dict_keys d) ->
     forall k v, In (k, v) d -> dict_get k (idict s') = Some v).
Proof.
  intros Hin HI Hall.
  destruct (load_ok cls Hin d s HI Hall) as [l E].
  eexists. split; [exact E|]. split; [reflexivity|]. split.
  - intros k Hk. exact (load_other_key cls Hin d s _ _ k HI E Hk).
  - intros Hnd k v Hi.
    exact (proj1 (load_committed cls Hin d s _ k v HI E Hnd Hi)).
Qed.

Lemma valid_load_succeeds_witness :
  exists s',
    Config.load_config_dict PyphiConfig
      [(KStr "LOG_FILE", VStr "run.log"); (KStr "PRECISION", VInt 3)] boot =
      (Ok tt, s') /\
    calls s' =
      calls boot ++
      hooked PyphiConfig
        [(KStr "LOG_FILE", VStr "run.log"); (KStr "PRECISION", VInt 3)] /\
    (forall k,
       ~ In k (dict_keys
                 [(KStr "LOG_FILE", VStr "run.log"); (KStr "PRECISION", VInt 3)]) ->
       dict_get k (idict s') = dict_get k (idict boot)) /\
    (NoDup (dict_keys
              [(KStr "LOG_FILE", VStr "run.log"); (KStr "PRECISION", VInt 3)]) ->
     forall k v,
       In (k, v) [(KStr "LOG_FILE", VStr "run.log"); (KStr "PRECISION", VInt 3)] ->
       dict_get k (idict s') = Some v).
Proof.
  apply (valid_load_succeeds PyphiConfig
           [(KStr "LOG_FILE", VStr "run.log"); (KStr "PRECISION", VInt 3)] boot).
  - apply PyphiConfig_inert.
  - apply boot_Inv.
  - repeat constructor.
    + exists "LOG_FILE", PyphiConfig.LOG_FILE.
      split; [reflexivity|]. split; vm_compute; reflexivity.
    + exists "PRECISION", PyphiConfig.PRECISION.
      split; [reflexivity|]. split; vm_compute; reflexivity.
Defined.

(** ** Logging *)
















(** ** Initialisation *)

Lemma bind_ok {A B} (m : M A) (k : A -> M B) (s s' : State) (a : A) :
  m s = (Ok a, s') -> bind m k s = k a s'.
Proof. unfold bind. intros ->. reflexivity. Qed.

Lemma bind_err {A B} (m : M A) (k : A -> M B) (s s' : State) (e : exn) :
  m s = (Err e, s') -> bind m k s = (Err e, s').
Proof. unfold bind. intros ->. reflexivity. Qed.







(** X18. A configuration file that cannot be loaded aborts the
    initialisation: when [pyphi_config.yml] exists, an exception of
    opening or parsing it, the [AttributeError] of a document that is not
    a mapping, and the exception of the first entry that cannot be
    assigned, a [ValueError] for a name that is not a declared setting,
    each leave [initialize] at once: the entries before the failing one
    stay loaded, [configure_logging] is not called and nothing is
    logged. *)
Theorem bad_config_file_aborts_initialize (env : environment) (s : State) :
  path_exists env PYPHI_CONFIG_FILENAME = true ->
  (forall e s0,
     yaml_load env PYPHI_CONFIG_FILENAME s = (Err e, s0) ->
     initialize env s = (Err e, s0)) /\
  (forall s0,
     yaml_load env PYPHI_CONFIG_FILENAME s = (Ok DOther, s0) ->
     initialize env s = (Err (AttributeError "items"), s0)) /\
  (forall d e s0 s1,
     yaml_load env PYPHI_CONFIG_FILENAME s = (Ok (DMapping d), s0) ->
     Config.load_config_dict PyphiConfig d s0 = (Err e, s1) ->
     initialize env s = (Err e, s1)) /\
  (forall xs ys n v s0 s1,
     yaml_load env PYPHI_CONFIG_FILENAME s =
       (Ok (DMapping (xs ++ (KStr n, v) :: ys)), s0) ->
     Config.load_config_dict PyphiConfig xs s0 = (Ok tt, s1) ->
     assoc n (Config.options PyphiConfig) = None ->
     initialize env s = (Err (ValueError (NotValidOption n)), s1)).
Proof.
  intros Hp.
  assert (Hfail : forall e s1,
            load_config_file (yaml_load env) PyphiConfig PYPHI_CONFIG_FILENAME s =
              (Err e, s1) ->
            initialize env s = (Err e, s1)).
  { intros e s1 H. unfold initialize. rewrite Hp.
    apply bind_err. apply bind_err. exact H. }
  assert (Hmap : forall d e s0 s1,
            yaml_load env PYPHI_CONFIG_FILENAME s = (Ok (DMapping d), s0) ->
            Config.load_config_dict PyphiConfig d s0 = (Err e, s1) ->
            initialize env s = (Err e, s1)).
  { intros d e s0 s1 Hy Hl. apply Hfail. unfold load_config_file.
    rewrite (bind_ok _ _ s s0 _ Hy). exact Hl. }
  split; [|split; [|split]].
  - intros e s0 Hy. apply Hfail. unfold load_config_file.
    apply bind_err. exact Hy.
  - intros s0 Hy. apply Hfail. unfold load_config_file.
    rewrite (bind_ok _ _ s s0 _ Hy). reflexivity.
  - exact Hmap.
  - intros xs ys n v s0 s1 Hy Hx Hn. apply (Hmap _ _ s0 s1 Hy).
    rewrite load_app, Hx, load_cons.
    unfold Config.setattr, Config.__setattr__. rewrite Hn. reflexivity.
Qed.

Lemma bad_config_file_aborts_initialize_witness :
  initialize (file_with DOther) boot = (Err (AttributeError "items"), boot) /\
  initialize
    (file_with (DMapping ([(KStr "PRECISION", VInt 3)] ++
                          (KStr "FOO", VInt 1) :: [(KStr "MEASURE", VStr "KLD")])))
    boot =
  (Err (ValueError (NotValidOption "FOO")),
   snd (Config.setattr PyphiConfig (KStr "PRECISION") (VInt 3) boot)).
Proof.
  split.
  - refine (proj1 (proj2 (bad_config_file_aborts_initialize
                            (file_with DOther) boot eq_refl)) boot eq_refl).
  - refine (proj2 (proj2 (proj2 (bad_config_file_aborts_initialize
              (file_with (DMapping ([(KStr "PRECISION", VInt 3)] ++
                                    (KStr "FOO", VInt 1) ::
                                    [(KStr "MEASURE", VStr "KLD")])))
              boot eq_refl)))
            [(KStr "PRECISION", VInt 3)] [(KStr "MEASURE", VStr "KLD")]
            "FOO" (VInt 1) boot _ eq_refl _ _).
    + vm_compute. reflexivity.
    + vm_compute. reflexivity.
Defined.

(** ** One descriptor under two names *)

(** X19. A descriptor carries one name: when a hookless [Option] object is
    declared under the name [a] and the name that the class lists it under
    last is [b], then on a new instance an accepted assignment to [a]
    stores the value under the key [b]; reading [a] yields the value, and
    when [a] is another name than [b] the entry of [a] in the mapping
    still holds the default. *)
Theorem shared_descriptor_aliases
  (cls : class) (a b : string) (o : Option) (v : value) (s : State) :
  wf_class cls ->
  assoc a (Config.options cls) = Some o ->
  last_key (oid o) (Config.options cls) = Some b ->
  on_change o = None ->
  check o (heap s) v = Ok false ->
  exists s2,
    Config.setattr cls (KStr a) v (snd (Config.new cls s)) = (Ok tt, s2) /\
    idict s2 = dict_set (KStr b) v (Config.defaults cls) /\
    Config.getattr cls a s2 = (Ok v, s2) /\
    (a <> b -> dict_get (KStr a) (idict s2) = Some (default o)).
Proof.
  intros Hwf Ho Hl Hf Hc. rewrite (new_run cls s Hwf). cbn [snd].
  assert (Hn : name_lookup (oid o) (bind_all (Config.options cls) (names s)) =
               KStr b)
    by (rewrite bind_all_lookup, Hl; reflexivity).
  set (s1 := mkState (bind_all (Config.options cls) (names s))
                     (Config.defaults cls) (heap s) (logging s) (calls s)).
  assert (Hc1 : check o (heap s1) v = Ok false) by exact Hc.
  eexists. split; [|split; [|split]].
  - unfold Config.setattr, Config.__setattr__. rewrite Ho.
    rewrite (set_accepted o (Config.getattr cls) v s1 Hc1), Hf. reflexivity.
  - unfold s1. cbn [idict committed set_idict names]. rewrite Hn. reflexivity.
  - rewrite (getattr_option cls a o _ Hwf Ho). unfold s1.
    cbn [idict committed set_idict names]. rewrite Hn.
    rewrite dict_get_set_same. reflexivity.
  - intros Hab. unfold s1. cbn [idict committed set_idict names]. rewrite Hn.
    rewrite dict_get_set_other by congruence.
    exact (defaults_get cls a o Hwf Ho).
Qed.

Lemma shared_descriptor_aliases_witness :
  exists s2,
    Config.setattr TwoNames (KStr "A") (VInt 7) (snd (Config.new TwoNames blank)) =
      (Ok tt, s2) /\
    idict s2 = dict_set (KStr "B") (VInt 7) (Config.defaults TwoNames) /\
    Config.getattr TwoNames "A" s2 = (Ok (VInt 7), s2) /\
    ("A" <> "B" -> dict_get (KStr "A") (idict s2) = Some (default Shared)).
Proof.
  apply (shared_descriptor_aliases TwoNames "A" "B" Shared (VInt 7) blank).
  - apply wf_class_by_eval. vm_compute. reflexivity.
  - reflexivity.
  - reflexivity.
  - reflexivity.
  - reflexivity.
Defined.
